(** * Semantic code highlighter: tokenizer adapter and markup renderer

    A shallow embedding of [src/index.ts].  The definitions come first:

    - [JS]: the few JavaScript string and array primitives the source calls
      ([split], [substring], [startsWith], [join], [find], [findIndex],
      [includes], array indexing), written out with their out-of-range
      behaviour;
    - [Crc]: the [crc8] checksum imported from the [crc] package;
    - [vscodeTextmate]: the part of the engine's interface that is used;
    - [Highlighter]: the functions of [index.ts] themselves
      ([flagToGrammarInfo], [tokenize], [styleAttributeForToken],
      [tokenizedFileToHTML], [highlight]).

    The facts follow in [JSFacts], [CrcFacts] and [HighlighterFacts].

    A JavaScript string is modelled as a [string] whose characters stand for
    code units below 256.  The grammar engine ([IGrammar.tokenizeLine], the
    registry's [loadGrammar], the [INITIAL] rule stack) and the grammar list
    of [tm-grammars] are external: every theorem quantifies over them. *)

From Stdlib Require Import ZArith List Bool Ascii String Lia.
Import ListNotations.

Open Scope string_scope.
Open Scope Z_scope.

(* ================================================================== *)
(** ** JavaScript primitives *)
(* ================================================================== *)

Module JS.

(** The double-quote character, as a one-character string. *)
Definition dq : string := String (ascii_of_nat 34) EmptyString.

(** The line-feed character (the separator of [code.split]). *)
Definition LF : ascii := ascii_of_nat 10.

(** [s.startsWith(p)]. *)
Fixpoint startsWith (s p : string) {struct p} : bool :=
  match p with
  | EmptyString => true
  | String b p' =>
      match s with
      | EmptyString => false
      | String a s' => Ascii.eqb a b && startsWith s' p'
      end
  end.

(** [s.includes(p)] on strings: [p] occurs somewhere in [s]. *)
Fixpoint includes (s p : string) : bool :=
  startsWith s p ||
  match s with
  | EmptyString => false
  | String _ s' => includes s' p
  end.

(** The suffixes of [p], longest first, the empty one included. *)
Fixpoint suffixes (p : string) : list string :=
  p :: match p with
       | EmptyString => []
       | String _ p' => suffixes p'
       end.

(** [rest] begins with a non-empty suffix of [p]: an occurrence of [p]
    that starts before [rest] could end inside it. *)
Definition continues (p rest : string) : bool :=
  existsb (fun r => match r with
                    | EmptyString => false
                    | String _ _ => startsWith rest r
                    end)
          (suffixes p).

(** [s.split(sep)] for a one-character separator: the segments between the
    occurrences of [sep], empty segments kept. *)
Fixpoint split (s : string) (sep : ascii) : list string :=
  match s with
  | EmptyString => [EmptyString]
  | String c s' =>
      if Ascii.eqb c sep then EmptyString :: split s' sep
      else match split s' sep with
           | [] => [String c EmptyString]
           | seg :: segs => String c seg :: segs
           end
  end.

(** How many times the character [c] occurs in [s]. *)
Fixpoint occurrences (c : ascii) (s : string) : nat :=
  match s with
  | EmptyString => O
  | String a s' => (if Ascii.eqb a c then 1 else 0) + occurrences c s'
  end.

(** [s.substring(start, end)]: both indices are clamped to [0, s.length]
    and swapped when [start > end]. *)
Definition clamp (len i : Z) : Z := Z.min (Z.max i 0) len.

Definition substring (s : string) (start end_ : Z) : string :=
  let len := Z.of_nat (String.length s) in
  let a := clamp len start in
  let b := clamp len end_ in
  let from := Z.min a b in
  let to := Z.max a b in
  String.substring (Z.to_nat from) (Z.to_nat (to - from)) s.

(** [arr.join(sep)] on an array of strings. *)
Definition join (arr : list string) (sep : string) : string :=
  String.concat sep arr.

(** [arr.findIndex(p)]: the index of the first element satisfying [p],
    [-1] when there is none. *)
Fixpoint findIndex {A : Type} (arr : list A) (p : A -> bool) : Z :=
  match arr with
  | [] => -1
  | x :: rest =>
      if p x then 0
      else let i := findIndex rest p in
           if i =? -1 then -1 else i + 1
  end.

(** [arr.find(p)]: the first element satisfying [p], [undefined] ([None])
    when there is none. *)
Fixpoint find {A : Type} (arr : list A) (p : A -> bool) : option A :=
  match arr with
  | [] => None
  | x :: rest => if p x then Some x else find rest p
  end.

(** [arr.includes(x)] on an array of strings ([===] on strings is equality
    of contents, case-sensitive). *)
Fixpoint arrayIncludes (arr : list string) (x : string) : bool :=
  match arr with
  | [] => false
  | y :: rest => String.eqb y x || arrayIncludes rest x
  end.

(** [arr[i]]: [undefined] ([None]) outside [0 .. arr.length - 1]. *)
Definition index {A : Type} (arr : list A) (i : Z) : option A :=
  if i <? 0 then None else nth_error arr (Z.to_nat i).

(** A possibly undefined string interpolated into a template literal. *)
Definition interpolate (v : option string) : string :=
  match v with
  | Some s => s
  | None => "undefined"
  end.

End JS.

(* ================================================================== *)
(** ** The checksum of the [crc] package *)
(* ================================================================== *)

Module Crc.

(** Modelled from the spec: [crc8] is imported from the [crc] package
    (line 1 of [index.ts]); its source is not in the repository.  The spec
    calls it an 8-bit checksum (CRC-8) over the token's raw text bytes.  The
    model is the package's table-driven CRC-8: polynomial [0x07], initial
    value 0, over the UTF-8 bytes of the string. *)
Definition TABLE : list Z :=
  [   0;   7;  14;   9;  28;  27;  18;  21;  56;  63;  54;  49;  36;  35;  42;  45;
    112; 119; 126; 121; 108; 107;  98; 101;  72;  79;  70;  65;  84;  83;  90;  93;
    224; 231; 238; 233; 252; 251; 242; 245; 216; 223; 214; 209; 196; 195; 202; 205;
    144; 151; 158; 153; 140; 139; 130; 133; 168; 175; 166; 161; 180; 179; 186; 189;
    199; 192; 201; 206; 219; 220; 213; 210; 255; 248; 241; 246; 227; 228; 237; 234;
    183; 176; 185; 190; 171; 172; 165; 162; 143; 136; 129; 134; 147; 148; 157; 154;
     39;  32;  41;  46;  59;  60;  53;  50;  31;  24;  17;  22;   3;   4;  13;  10;
     87;  80;  89;  94;  75;  76;  69;  66; 111; 104;  97; 102; 115; 116; 125; 122;
    137; 142; 135; 128; 149; 146; 155; 156; 177; 182; 191; 184; 173; 170; 163; 164;
    249; 254; 247; 240; 229; 226; 235; 236; 193; 198; 207; 200; 221; 218; 211; 212;
    105; 110; 103;  96; 117; 114; 123; 124;  81;  86;  95;  88;  77;  74;  67;  68;
     25;  30;  23;  16;   5;   2;  11;  12;  33;  38;  47;  40;  61;  58;  51;  52;
     78;  73;  64;  71;  82;  85;  92;  91; 118; 113; 120; 127; 106; 109; 100;  99;
     62;  57;  48;  55;  34;  37;  44;  43;   6;   1;   8;  15;  26;  29;  20;  19;
    174; 169; 160; 167; 178; 181; 188; 187; 150; 145; 152; 159; 138; 141; 132; 131;
    222; 217; 208; 215; 194; 197; 204; 203; 230; 225; 232; 239; 250; 253; 244; 243 ].

(** One table entry computed bit by bit: eight shift-and-reduce steps with
    the polynomial [0x07] on an 8-bit register. *)
Definition shiftStep (c : Z) : Z :=
  if Z.testbit c 7
  then Z.land (Z.lxor (Z.shiftl c 1) 7) 255
  else Z.land (Z.shiftl c 1) 255.

Definition tableEntry (b : Z) : Z :=
  shiftStep (shiftStep (shiftStep (shiftStep
    (shiftStep (shiftStep (shiftStep (shiftStep b))))))).

(** The UTF-8 bytes of one code unit below 256. *)
Definition utf8 (c : ascii) : list Z :=
  let n := Z.of_N (N_of_ascii c) in
  if n <? 128 then [n]
  else [Z.lor 192 (Z.shiftr n 6); Z.lor 128 (Z.land n 63)].

(** [Buffer.from(value)] on a string. *)
Definition createBuffer (value : string) : list Z :=
  flat_map utf8 (list_ascii_of_string value).

(** The package's loop: [crc = TABLE[(crc ^ byte) & 0xff] & 0xff]. *)
Definition update (crc byte : Z) : Z :=
  Z.land (nth (Z.to_nat (Z.land (Z.lxor crc byte) 255)) TABLE 0) 255.

Definition calculate (buf : list Z) (previous : Z) : Z :=
  fold_left update buf previous.

Definition crc8 (value : string) : Z := calculate (createBuffer value) 0.

End Crc.

(* ================================================================== *)
(** ** The interface of the grammar engine *)
(* ================================================================== *)

Module vscodeTextmate.

(** The fields of the engine's types that [index.ts] reads.  The rule stack
    is opaque to the caller: its type is a parameter. *)
Record IToken : Type := {
  startIndex : Z;
  endIndex : Z;
  scopes : list string
}.

Record ITokenizeLineResult (StateStack : Type) : Type := {
  tokens : list IToken;
  ruleStack : StateStack
}.

Record IGrammar (StateStack : Type) : Type := {
  tokenizeLine : string -> StateStack -> ITokenizeLineResult StateStack
}.

Arguments tokens {StateStack} _.
Arguments ruleStack {StateStack} _.
Arguments tokenizeLine {StateStack} _ _ _.

End vscodeTextmate.

(* ================================================================== *)
(** ** index.ts *)
(* ================================================================== *)

Module Highlighter.

Import JS.

(** An entry of [tmGrammars.grammars]; [aliases] is optional. *)
Record GrammarInfo : Type := {
  name : string;
  scopeName : string;
  aliases : option (list string)
}.

(** [flag === grammarInfo.name || grammarInfo.aliases?.includes(flag)];
    an absent [aliases] makes the right operand [undefined], which [find]
    treats as false. *)
Definition flagMatches (flag : string) (grammarInfo : GrammarInfo) : bool :=
  String.eqb flag (name grammarInfo) ||
  match aliases grammarInfo with
  | Some al => arrayIncludes al flag
  | None => false
  end.

(** A flag names a grammar, in the spec's words: it is the grammar's name
    or one of its aliases. *)
Definition namesGrammar (flag : string) (grammarInfo : GrammarInfo) : Prop :=
  flag = name grammarInfo \/
  exists al, aliases grammarInfo = Some al /\ In flag al.

Definition flagToGrammarInfo (grammars : list GrammarInfo) (flag : string)
  : option GrammarInfo :=
  find grammars (flagMatches flag).

Record Token : Type := {
  text : string;
  scopes : list string
}.

(** The inner loop of [tokenize]: one output token per engine span. *)
Definition codeLineTokens (codeLine : string)
    (tokens : list vscodeTextmate.IToken) : list Token :=
  map (fun token =>
         {| text := substring codeLine (vscodeTextmate.startIndex token)
                                       (vscodeTextmate.endIndex token);
            scopes := vscodeTextmate.scopes token |})
      tokens.

Section Tokenizer.

Context {StateStack : Type}.
Variable INITIAL : StateStack.

(** The outer loop of [tokenize] from some line on.  The generator is
    consumed once, in order, by [tokenizedFileToHTML]: it is modelled by the
    list of its successive yields, with [ruleStack] threaded from line to
    line. *)
Fixpoint tokenizeFrom (grammar : vscodeTextmate.IGrammar StateStack)
    (ruleStack : StateStack) (codeLines : list string)
  : list (list Token) :=
  match codeLines with
  | [] => []
  | codeLine :: rest =>
      let tokenizeLineResult :=
        vscodeTextmate.tokenizeLine grammar codeLine ruleStack in
      codeLineTokens codeLine (vscodeTextmate.tokens tokenizeLineResult)
        :: tokenizeFrom grammar
             (vscodeTextmate.ruleStack tokenizeLineResult) rest
  end.

Definition tokenize (code : string)
    (grammar : vscodeTextmate.IGrammar StateStack) : list (list Token) :=
  tokenizeFrom grammar INITIAL (split code LF).

(** The arguments of the successive [grammar.tokenizeLine] calls that the
    same loop makes. *)
Fixpoint tokenizeLineCalls (grammar : vscodeTextmate.IGrammar StateStack)
    (ruleStack : StateStack) (codeLines : list string)
  : list (string * StateStack) :=
  match codeLines with
  | [] => []
  | codeLine :: rest =>
      (codeLine, ruleStack)
        :: tokenizeLineCalls grammar
             (vscodeTextmate.ruleStack
                (vscodeTextmate.tokenizeLine grammar codeLine ruleStack))
             rest
  end.

(** The rule stack held before line [i], in the spec's words: the
    engine's initial stack before line 0, afterwards the stack returned
    by the call on the line before. *)
Fixpoint ruleStackBefore (grammar : vscodeTextmate.IGrammar StateStack)
    (codeLines : list string) (i : nat) : StateStack :=
  match i with
  | O => INITIAL
  | S j =>
      vscodeTextmate.ruleStack
        (vscodeTextmate.tokenizeLine grammar
           (nth j codeLines EmptyString)
           (ruleStackBefore grammar codeLines j))
  end.

End Tokenizer.

(** The colour table, lines 77-138. *)
Definition htmlColors : list string :=
  [ "#d78797"; "#c47d85"; "#b27373"; "#d38b83"; "#bf8172"; "#ac7762";
    "#ca9170"; "#b78761"; "#a37c53"; "#bf975f"; "#ab8d53"; "#978248";
    "#af9d55"; "#9c924c"; "#898744"; "#9da353"; "#8a974e"; "#788b48";
    "#88a85c"; "#759c58"; "#638f54"; "#6fac6b"; "#5d9f67"; "#4c9263";
    "#52af7d"; "#41a179"; "#319373"; "#31b191"; "#21a28a"; "#129484";
    "#09b1a4"; "#00a29c"; "#039393"; "#13afb5"; "#1e9fab"; "#2690a0";
    "#3cabc3"; "#439bb7"; "#468caa"; "#61a5ce"; "#6395c0"; "#6386b1";
    "#829ed4"; "#808fc4"; "#7c80b3"; "#9e96d5"; "#9887c3"; "#9179b1";
    "#b58fd1"; "#ac81be"; "#a174ab"; "#c689c8"; "#ba7cb4"; "#ad70a1";
    "#d185bb"; "#c27aa7"; "#b36e93"; "#d685aa"; "#c67a96"; "#b57084" ].

(** The callback of [findIndex] in [styleAttributeForToken]. *)
Definition isNameScope (scope : string) : bool :=
  startsWith scope "entity.name" || startsWith scope "variable".

(** [styleAttributeForToken]; the [console.log(hash)] of line 147 writes
    to the console only and is left out. *)
Definition styleAttributeForToken (token : Token) : string :=
  if negb (findIndex (scopes token) isNameScope =? -1) then
    let hash := Crc.crc8 (text token) in
    let colorIndex := Z.rem hash (Z.of_nat (List.length htmlColors)) in
    let color := index htmlColors colorIndex in
    "style=" ++ dq ++ "color: " ++ interpolate color ++ dq
  else EmptyString.

(** Name-like, in the spec's words: some scope starts with the literal
    prefix [entity.name] or with the literal prefix [variable]. *)
Definition nameLike (token : Token) : Prop :=
  exists scope, In scope (scopes token) /\
    ((exists rest, scope = "entity.name" ++ rest) \/
     (exists rest, scope = "variable" ++ rest)).

(** The template literal of lines 159-161. *)
Definition spanOf (token : Token) : string :=
  "<span " ++ styleAttributeForToken token ++ " title=" ++ dq
    ++ join (scopes token) "," ++ dq ++ ">" ++ text token ++ "</span>".

(** [tokenizedFileToHTML]: the two nested loops appending to [html]. *)
Definition tokenizedFileToHTML (lines : list (list Token)) : string :=
  let html := "<pre><code>" in
  let html :=
    fold_left
      (fun html line =>
         let html := fold_left (fun html token => html ++ spanOf token)
                               line html in
         html ++ "<br>")
      lines html in
  html ++ "</code></pre>".

(** The rendering in the spec's words: the opening tags, then for each
    line its spans followed by one line break, then the closing tags. *)
Fixpoint concatAll (pieces : list string) : string :=
  match pieces with
  | [] => EmptyString
  | p :: rest => p ++ concatAll rest
  end.

Definition renderLine (line : list Token) : string :=
  concatAll (map spanOf line) ++ "<br>".

Definition render (lines : list (list Token)) : string :=
  "<pre><code>" ++ concatAll (map renderLine lines) ++ "</code></pre>".

(** What a span looks like when it carries no style attribute. *)
Definition plainSpanOf (token : Token) : string :=
  "<span " ++ " title=" ++ dq ++ join (scopes token) "," ++ dq ++ ">"
    ++ text token ++ "</span>".

Definition renderPlain (lines : list (list Token)) : string :=
  "<pre><code>"
    ++ concatAll (map (fun line => concatAll (map plainSpanOf line) ++ "<br>")
                      lines)
    ++ "</code></pre>".

(** The text that opens every colour style attribute the renderer emits. *)
Definition colorStyle : string := "style=" ++ dq ++ "color:".

(** The name every style attribute is spelled with.  HTML matches attribute
    names without regard to the case of ASCII letters, so a fragment is
    searched for it after ASCII lower-casing. *)
Definition styleWord : string := "style".

Definition lowerChar (c : ascii) : ascii :=
  let n := nat_of_ascii c in
  if Nat.leb 65 n && Nat.leb n 90 then ascii_of_nat (n + 32)%nat else c.

Fixpoint asciiLower (s : string) : string :=
  match s with
  | EmptyString => EmptyString
  | String c s' => String (lowerChar c) (asciiLower s')
  end.

Definition lowerToken (token : Token) : Token :=
  {| text := asciiLower (text token);
     scopes := map asciiLower (scopes token) |}.

(** A token whose text and scopes do not contain the word as written. *)
Definition hasNoStyleWord (token : Token) : Prop :=
  includes (text token) styleWord = false /\
  forall scope, In scope (scopes token) -> includes scope styleWord = false.

(** A token whose text and scopes do not contain the word in any letter
    case. *)
Definition freeOfStyle (token : Token) : Prop :=
  includes (asciiLower (text token)) styleWord = false /\
  forall scope, In scope (scopes token) ->
    includes (asciiLower scope) styleWord = false.

(** Two more tokens that are not name-like and bring markup: one in its
    text, with single quotes and capitals, one in a scope that closes the
    title attribute. *)
Definition quotedMarkup : list (list Token) :=
  [[ {| text := "// <b STYLE='color: red'>";
        scopes := ["source.ts"; "comment.line.double-slash.ts"] |};
     {| text := "x";
        scopes := ["source.ts"; "c" ++ dq ++ " style='color:red"] |} ]].

(** A comment line that quotes markup, as one token: it is not name-like. *)
Definition markupInComment : list (list Token) :=
  [[ {| text := "// <b style=" ++ dq ++ "color: red" ++ dq ++ ">";
        scopes := ["source.ts"; "comment.line.double-slash.ts"] |} ]].

(** ** [highlight]

    [highlight] either returns the fragment or throws; the calls it makes
    to the engine are recorded in order. *)
Inductive Outcome (A : Type) : Type :=
| Returned (value : A)
| Thrown (message : string).

Arguments Returned {A} _.
Arguments Thrown {A} _.

Inductive Call (StateStack : Type) : Type :=
| LoadGrammar (scopeName : string)
| TokenizeLine (codeLine : string) (ruleStack : StateStack).

Arguments LoadGrammar {StateStack} _.
Arguments TokenizeLine {StateStack} _ _.

Section Highlight.

Context {StateStack : Type}.
Variable INITIAL : StateStack.
(** [tmGrammars.grammars] and [registry.loadGrammar]. *)
Variable grammars : list GrammarInfo.
Variable loadGrammar : string -> option (vscodeTextmate.IGrammar StateStack).

Definition Run (A : Type) : Type := (list (Call StateStack) * Outcome A)%type.

Definition ret {A : Type} (a : A) : Run A := ([], Returned a).

Definition throw {A : Type} (message : string) : Run A :=
  ([], Thrown message).

Definition bind {A B : Type} (m : Run A) (k : A -> Run B) : Run B :=
  match m with
  | (calls, Returned a) => let (calls', r) := k a in (calls ++ calls', r)%list
  | (calls, Thrown message) => (calls, Thrown message)
  end.

Notation "x <- m ;; k" := (bind m (fun x => k))
  (at level 61, m at next level, right associativity).

Definition registryLoadGrammar (scope : string)
  : Run (option (vscodeTextmate.IGrammar StateStack)) :=
  ([LoadGrammar scope], Returned (loadGrammar scope)).

Definition runTokenize (code : string)
    (grammar : vscodeTextmate.IGrammar StateStack) : Run (list (list Token)) :=
  (map (fun c => TokenizeLine (fst c) (snd c))
       (tokenizeLineCalls grammar INITIAL (split code LF)),
   Returned (tokenize INITIAL code grammar)).

Definition highlight (code flag : string) : Run string :=
  match flagToGrammarInfo grammars flag with
  | None => throw ("Failed to find grammar for flag " ++ flag)
  | Some grammarInfo =>
      grammar <- registryLoadGrammar (scopeName grammarInfo) ;;
      match grammar with
      | None =>
          throw ("Failed to load grammar for scope name "
                   ++ scopeName grammarInfo)
      | Some grammar =>
          lines <- runTokenize code grammar ;;
          ret (tokenizedFileToHTML lines)
      end
  end.

End Highlight.

(** ** Spans that cover a line

    [covers a len spans]: the spans start at [a], each begins where the one
    before ended, none runs backwards, and the last ends at [len]. *)
Fixpoint covers (a len : Z) (spans : list vscodeTextmate.IToken) : Prop :=
  match spans with
  | [] => a = len
  | token :: rest =>
      vscodeTextmate.startIndex token = a /\
      a <= vscodeTextmate.endIndex token <= len /\
      covers (vscodeTextmate.endIndex token) len rest
  end.

(** ** Engines used to run the theorems on concrete inputs *)

(** An engine that answers every line, also an empty one, with one span
    for the whole line, and has a trivial rule stack. *)
Definition wholeLineGrammar : vscodeTextmate.IGrammar unit :=
  {| vscodeTextmate.tokenizeLine := fun line stack =>
       {| vscodeTextmate.tokens :=
            [ {| vscodeTextmate.startIndex := 0;
                 vscodeTextmate.endIndex := Z.of_nat (String.length line);
                 vscodeTextmate.scopes := ["source.ts"] |} ];
          vscodeTextmate.ruleStack := stack |} |}.

(** An engine that returns no span at all. *)
Definition silentGrammar : vscodeTextmate.IGrammar unit :=
  {| vscodeTextmate.tokenizeLine := fun line stack =>
       {| vscodeTextmate.tokens := [];
          vscodeTextmate.ruleStack := stack |} |}.

(** An engine whose rule stack records whether a block comment is open:
    a line that starts with [/*] opens one, a line that starts with [*/]
    closes it; the line is one span, scoped by the stack it was read in. *)
Definition commentGrammar : vscodeTextmate.IGrammar bool :=
  {| vscodeTextmate.tokenizeLine := fun (line : string) (inComment : bool) =>
       {| vscodeTextmate.tokens :=
            [ {| vscodeTextmate.startIndex := 0;
                 vscodeTextmate.endIndex := Z.of_nat (String.length line);
                 vscodeTextmate.scopes :=
                   if inComment then ["source.ts"; "comment.block.ts"]
                   else ["source.ts"; "variable.other.readwrite.ts"] |} ];
          vscodeTextmate.ruleStack :=
            if startsWith line "/*" then true
            else if startsWith line "*/" then false
            else inComment |} |}.

(** A two-entry grammar list in the shape of [tmGrammars.grammars]. *)
Definition sampleGrammars : list GrammarInfo :=
  [ {| name := "typescript"; scopeName := "source.ts";
       aliases := Some ["ts"] |};
    {| name := "haskell"; scopeName := "source.haskell";
       aliases := Some ["hs"] |};
    {| name := "ts"; scopeName := "source.other"; aliases := None |} ].

End Highlighter.

(* ================================================================== *)
(** ** The grammar files: [scopeNameToGrammarFilePath] and the
       [loadGrammar] option of the registry *)
(* ================================================================== *)

Module Loader.

Import JS Highlighter.

(** [scopeNameToGrammarFilePath], lines 15-21: the loop returns at the first
    entry with that scope name and falls off its end ([undefined]) when there
    is none. *)
Fixpoint scopeNameToGrammarFilePath (grammars : list GrammarInfo)
    (scope : string) : option string :=
  match grammars with
  | [] => None
  | grammarInfo :: rest =>
      if String.eqb scope (scopeName grammarInfo)
      then Some ("./node_modules/tm-grammars/grammars/"
                   ++ name grammarInfo ++ ".json")
      else scopeNameToGrammarFilePath rest scope
  end.

(** The test [!grammarPath]: [undefined] and the empty string are falsy. *)
Definition falsy (v : option string) : bool :=
  match v with
  | None => true
  | Some EmptyString => true
  | Some (String _ _) => false
  end.

Section LoadGrammar.

Variable RawGrammar : Type.
Variable grammars : list GrammarInfo.
(** [fs.readFileSync(path).toString()] and [vscodeTextmate.parseRawGrammar]:
    either may throw. *)
Variable readFileSync : string -> Outcome string.
Variable parseRawGrammar : string -> string -> Outcome RawGrammar.

(** [registryOptions.loadGrammar], lines 42-49, with the paths it reads. *)
Definition loadGrammar (scope : string)
  : list string * Outcome (option RawGrammar) :=
  let grammarPath := scopeNameToGrammarFilePath grammars scope in
  if falsy grammarPath then ([], Returned None)
  else
    let path := interpolate grammarPath in
    match readFileSync path with
    | Thrown message => ([path], Thrown message)
    | Returned content =>
        match parseRawGrammar content path with
        | Thrown message => ([path], Thrown message)
        | Returned raw => ([path], Returned (Some raw))
        end
    end.

End LoadGrammar.

End Loader.

(* ================================================================== *)
(** ** The script at the end of the file *)
(* ================================================================== *)

Module Script.

Import JS Highlighter.

(** The two example sources, lines 183-211. *)
Definition exampleTypescript : string := "
function shuffle<T>(array: T[]): T[] {
  let currentIndex = array.length,
    temporaryValue: T,
    randomIndex: number;

  // While there remain elements to shuffle...
  while (0 !== currentIndex) {
    // Pick a remaining element...
    randomIndex = Math.floor(Math.random() * currentIndex);
    currentIndex -= 1;

    // And swap it with the current element.
    temporaryValue = array[currentIndex];
    array[currentIndex] = array[randomIndex];
    array[randomIndex] = temporaryValue;
  }

  return array;
}
".

Definition exampleHaskell : string := "
-- | The 'foldl' function folds the list from the left,
-- and is tail-recursive.
foldl            :: (a -> b -> a) -> a -> [b] -> a
foldl f z []     =  z
foldl f z (x:xs) =  foldl f (f z x) xs
".

(** What the script does to the outside: calls to the engine and calls to
    [fs.writeFileSync]. *)
Inductive Effect (StateStack : Type) : Type :=
| Engine (call : Call StateStack)
| WriteFile (path content : string).

Arguments Engine {StateStack} _.
Arguments WriteFile {StateStack} _ _.

(** The files written among some effects, in order, with their contents. *)
Definition writes {StateStack : Type} (effects : list (Effect StateStack))
  : list (string * string) :=
  flat_map (fun effect =>
              match effect with
              | Engine _ => []
              | WriteFile path content => [(path, content)]
              end)
           effects.

(** The template literal around each fragment. *)
Definition document (fragment : string) : string :=
  "<!DOCTYPE html><html><body>" ++ fragment ++ "</body></html>".

Section Main.

Context {StateStack : Type}.
Variable INITIAL : StateStack.
Variable grammars : list GrammarInfo.
Variable loadGrammar : string -> option (vscodeTextmate.IGrammar StateStack).
(** [fs.writeFileSync(path, content)]: [Some message] when it throws. *)
Variable writeFileSync : string -> string -> option string.

(** One statement [fs.writeFileSync(file, `...${await highlight(code, flag)}...`)]:
    the argument is evaluated first, so a throw of [highlight] leaves the
    file unwritten. *)
Definition writeHighlighted (file code flag : string)
  : list (Effect StateStack) * Outcome unit :=
  match highlight INITIAL grammars loadGrammar code flag with
  | (calls, Thrown message) => (map Engine calls, Thrown message)
  | (calls, Returned fragment) =>
      let content := document fragment in
      ((map Engine calls ++ [WriteFile file content])%list,
       match writeFileSync file content with
       | Some message => Thrown message
       | None => Returned tt
       end)
  end.

(** Lines 213-227: the two statements in sequence. *)
Definition main : list (Effect StateStack) * Outcome unit :=
  match writeHighlighted "typescript.html" exampleTypescript "ts" with
  | (effects, Thrown message) => (effects, Thrown message)
  | (effects, Returned _) =>
      let (effects', outcome) :=
        writeHighlighted "haskell.html" exampleHaskell "hs" in
      ((effects ++ effects')%list, outcome)
  end.

End Main.

End Script.

(* ================================================================== *)
(** ** Spans that reach the end of the line *)
(* ================================================================== *)

Module Spans.

Import JS Highlighter.

(** [reaches a len spans]: the spans start at [a], each begins where the
    one before ended, none runs backwards, and the last ends at [len] or
    beyond it (the engine counts the line feed it appends to the line). *)
Fixpoint reaches (a len : Z) (spans : list vscodeTextmate.IToken) : Prop :=
  match spans with
  | [] => len <= a
  | token :: rest =>
      vscodeTextmate.startIndex token = a /\
      a <= vscodeTextmate.endIndex token /\
      reaches (vscodeTextmate.endIndex token) len rest
  end.

(** A span with its two indices exchanged. *)
Definition turned (span : vscodeTextmate.IToken) : vscodeTextmate.IToken :=
  {| vscodeTextmate.startIndex := vscodeTextmate.endIndex span;
     vscodeTextmate.endIndex := vscodeTextmate.startIndex span;
     vscodeTextmate.scopes := vscodeTextmate.scopes span |}.

(** An engine that answers every line with one span that ends one past the
    end of the line. *)
Definition overshootGrammar : vscodeTextmate.IGrammar unit :=
  {| vscodeTextmate.tokenizeLine := fun (line : string) (stack : unit) =>
       {| vscodeTextmate.tokens :=
            [ {| vscodeTextmate.startIndex := 0;
                 vscodeTextmate.endIndex :=
                   Z.of_nat (String.length line) + 1;
                 vscodeTextmate.scopes := ["source.ts"] |} ];
          vscodeTextmate.ruleStack := stack |} |}.

(** An engine that answers with spans outside the line and a span that
    runs backwards. *)
Definition wildGrammar : vscodeTextmate.IGrammar unit :=
  {| vscodeTextmate.tokenizeLine := fun (line : string) (stack : unit) =>
       {| vscodeTextmate.tokens :=
            [ {| vscodeTextmate.startIndex := -3;
                 vscodeTextmate.endIndex := 2;
                 vscodeTextmate.scopes := ["a"] |};
              {| vscodeTextmate.startIndex := 4;
                 vscodeTextmate.endIndex := 1;
                 vscodeTextmate.scopes := ["b"] |};
              {| vscodeTextmate.startIndex := 7;
                 vscodeTextmate.endIndex := 100;
                 vscodeTextmate.scopes := ["c"] |} ];
          vscodeTextmate.ruleStack := stack |} |}.

End Spans.

(* ================================================================== *)
(** * Facts about the JavaScript primitives *)
(* ================================================================== *)

Module JSFacts.

Import JS.

Lemma append_assoc (a b c : string) : (a ++ b) ++ c = a ++ (b ++ c).
Proof.
  induction a as [|x a IH]; simpl; [reflexivity | now rewrite IH].
Qed.

Lemma append_empty_r (a : string) : a ++ EmptyString = a.
Proof.
  induction a as [|x a IH]; simpl; [reflexivity | now rewrite IH].
Qed.

Lemma append_length (a b : string) :
  String.length (a ++ b) = (String.length a + String.length b)%nat.
Proof.
  induction a as [|x a IH]; simpl; [reflexivity | now rewrite IH].
Qed.

(** *** [startsWith] and [includes] *)

Lemma startsWith_spec (s p : string) :
  startsWith s p = true <-> exists rest, s = p ++ rest.
Proof.
  revert s; induction p as [|b p IH]; intros s; simpl.
  - split; [intros _; now exists s | reflexivity].
  - destruct s as [|a s].
    + split; [discriminate | intros [rest H]; discriminate].
    + rewrite andb_true_iff, Ascii.eqb_eq, IH. split.
      * intros [-> [rest ->]]. now exists rest.
      * intros [rest H]. injection H as -> ->. split; [reflexivity | now exists rest].
Qed.

Lemma includes_cons (c : ascii) (s p : string) :
  includes (String c s) p = startsWith (String c s) p || includes s p.
Proof. reflexivity. Qed.

Lemma includes_spec (s p : string) :
  includes s p = true <-> exists before after, s = before ++ p ++ after.
Proof.
  induction s as [|c s IH].
  - simpl. rewrite orb_false_r, startsWith_spec. split.
    + intros [rest H]. now exists EmptyString, rest.
    + intros [before [after H]]. destruct before; simpl in H.
      * now exists after.
      * discriminate.
  - rewrite includes_cons, orb_true_iff, startsWith_spec, IH. split.
    + intros [[rest H] | [before [after H]]].
      * now exists EmptyString, rest.
      * exists (String c before), after. simpl. now rewrite H.
    + intros [before [after H]]. destruct before as [|x before]; simpl in H.
      * left. now exists after.
      * right. injection H as _ H. now exists before, after.
Qed.

Lemma startsWith_append (v rest p : string) :
  startsWith (v ++ rest) p = true ->
  startsWith v p = true \/
  exists r, p = v ++ r /\ startsWith rest r = true.
Proof.
  revert p; induction v as [|a v IH]; intros p H.
  - right. now exists p.
  - destruct p as [|b p]; [now left|].
    simpl in H. apply andb_true_iff in H as [Hab H].
    destruct (IH p H) as [Hv | (r & -> & Hr)].
    + left. simpl. now rewrite Hab, Hv.
    + right. exists r. apply Ascii.eqb_eq in Hab. now subst b.
Qed.

Lemma suffixes_In (v r : string) : In r (suffixes (v ++ r)).
Proof.
  induction v as [|a v IH]; simpl.
  - destruct r; simpl; now left.
  - now right.
Qed.

Lemma continues_false (p rest : string) (a : ascii) (r v : string) :
  continues p rest = false -> p = v ++ String a r ->
  startsWith rest (String a r) = false.
Proof.
  intros C ->. unfold continues in C.
  destruct (startsWith rest (String a r)) eqn:E; [|reflexivity].
  rewrite <- C. symmetry. apply existsb_exists.
  exists (String a r). split; [apply suffixes_In | exact E].
Qed.

Lemma startsWith_append_false (v rest p : string) :
  startsWith v p = false -> continues p rest = false ->
  startsWith (v ++ rest) p = false.
Proof.
  intros Hv C. destruct (startsWith (v ++ rest) p) eqn:E; [|reflexivity].
  destruct (startsWith_append v rest p E) as [H | (r & Hp & Hr)];
    [congruence|].
  destruct r as [|a r].
  - rewrite append_empty_r in Hp. subst p.
    assert (startsWith v v = true) by (apply startsWith_spec; exists EmptyString;
                                       now rewrite append_empty_r).
    congruence.
  - rewrite (continues_false p rest a r v C Hp) in Hr. discriminate.
Qed.

(** No occurrence of [p] in [v], none in [rest], and none across the seam:
    none in [v ++ rest]. *)
Lemma includes_append_false (v rest p : string) :
  includes v p = false -> includes rest p = false ->
  continues p rest = false ->
  includes (v ++ rest) p = false.
Proof.
  intros Hv Hrest C. induction v as [|a v IH]; [exact Hrest|].
  rewrite includes_cons in Hv. apply orb_false_iff in Hv as [Hs Hv].
  change (String a v ++ rest) with (String a (v ++ rest)).
  rewrite includes_cons. apply orb_false_iff. split.
  - now apply (startsWith_append_false (String a v) rest p).
  - now apply IH.
Qed.

(** *** [split] *)

Lemma split_nonempty (s : string) (sep : ascii) : split s sep <> [].
Proof.
  destruct s as [|c s]; simpl; [discriminate|].
  destruct (Ascii.eqb c sep); [discriminate|].
  destruct (split s sep); discriminate.
Qed.

Lemma split_length (s : string) (sep : ascii) :
  List.length (split s sep) = S (occurrences sep s).
Proof.
  induction s as [|c s IH]; simpl; [reflexivity|].
  destruct (Ascii.eqb c sep); simpl.
  - now rewrite IH.
  - destruct (split s sep) as [|seg segs] eqn:E; simpl in *; [discriminate | exact IH].
Qed.

(** Joining the segments with the separator gives the string back. *)
Lemma split_join (s : string) (sep : ascii) :
  join (split s sep) (String sep EmptyString) = s.
Proof.
  unfold join. induction s as [|c s IH]; simpl; [reflexivity|].
  destruct (Ascii.eqb c sep) eqn:E.
  - apply Ascii.eqb_eq in E; subst c.
    pose proof (split_nonempty s sep) as NE.
    destruct (split s sep) as [|seg segs]; [contradiction|].
    simpl in *. now rewrite IH.
  - destruct (split s sep) as [|seg segs] eqn:E2.
    + now destruct (split_nonempty s sep).
    + simpl in *. destruct segs; simpl in *; now rewrite <- IH.
Qed.

(** *** [substring] *)

Lemma substring_zero_length (s : string) (n : nat) :
  String.substring n 0 s = EmptyString.
Proof.
  revert n; induction s as [|c s IH]; intros [|n]; simpl; auto.
Qed.

Lemma substring_whole (s : string) :
  String.substring 0 (String.length s) s = s.
Proof.
  induction s as [|c s IH]; simpl; [reflexivity | now rewrite IH].
Qed.

Lemma substring_append (s : string) (n m k : nat) :
  (n + m + k <= String.length s)%nat ->
  String.substring n m s ++ String.substring (n + m) k s
  = String.substring n (m + k) s.
Proof.
  revert n m k; induction s as [|c s IH]; intros n m k H; simpl in H.
  - assert (n = 0 /\ m = 0 /\ k = 0)%nat as (-> & -> & ->) by lia. reflexivity.
  - destruct n as [|n].
    + destruct m as [|m]; simpl.
      * reflexivity.
      * f_equal. apply (IH 0%nat m k). lia.
    + simpl. apply IH. lia.
Qed.

(** Inside the string and in order, [substring] is the plain slice. *)
Lemma substring_in_range (s : string) (a b : Z) :
  0 <= a <= b -> b <= Z.of_nat (String.length s) ->
  substring s a b = String.substring (Z.to_nat a) (Z.to_nat (b - a)) s.
Proof.
  intros Ha Hb. unfold substring, clamp.
  rewrite !Z.max_l by lia. rewrite !Z.min_l by lia.
  rewrite Z.max_r by lia. reflexivity.
Qed.

(** *** [findIndex], [find], [includes] on arrays *)

Lemma findIndex_ge (A : Type) (arr : list A) (p : A -> bool) :
  -1 <= findIndex arr p.
Proof.
  induction arr as [|x arr IH]; simpl; [lia|].
  destruct (p x); [lia|].
  destruct (findIndex arr p =? -1) eqn:E; lia.
Qed.

Lemma findIndex_found (A : Type) (arr : list A) (p : A -> bool) :
  negb (findIndex arr p =? -1) = existsb p arr.
Proof.
  induction arr as [|x arr IH]; simpl; [reflexivity|].
  destruct (p x); simpl; [reflexivity|].
  rewrite <- IH. pose proof (findIndex_ge A arr p).
  destruct (findIndex arr p =? -1) eqn:E; simpl; [reflexivity|].
  apply Z.eqb_neq in E. destruct (findIndex arr p + 1 =? -1) eqn:E2; [|reflexivity].
  apply Z.eqb_eq in E2. lia.
Qed.

Lemma find_some (A : Type) (arr : list A) (p : A -> bool) (x : A) :
  find arr p = Some x <->
  exists before after,
    arr = (before ++ x :: after)%list /\ p x = true /\
    forall y, In y before -> p y = false.
Proof.
  induction arr as [|y arr IH]; simpl.
  - split; [discriminate|]. intros (before & after & H & _). now destruct before.
  - destruct (p y) eqn:Py.
    + split.
      * intros [= ->]. exists [], arr. simpl. intuition.
      * intros (before & after & H & Px & Hb). destruct before as [|z before].
        -- simpl in H. now injection H as ->.
        -- simpl in H. injection H as -> _.
           rewrite (Hb z (or_introl eq_refl)) in Py. discriminate.
    + rewrite IH. split.
      * intros (before & after & -> & Px & Hb). exists (y :: before), after.
        simpl. repeat split; auto. intros z [<- | Hz]; auto.
      * intros (before & after & H & Px & Hb). destruct before as [|z before].
        -- simpl in H. injection H as -> _. congruence.
        -- simpl in H. injection H as _ ->. exists before, after.
           repeat split; auto. intros w Hw. apply Hb. now right.
Qed.

Lemma find_none (A : Type) (arr : list A) (p : A -> bool) :
  find arr p = None <-> forall x, In x arr -> p x = false.
Proof.
  induction arr as [|y arr IH]; simpl.
  - split; [intros _ x [] | reflexivity].
  - destruct (p y) eqn:Py.
    + split; [discriminate|]. intros H. rewrite (H y (or_introl eq_refl)) in Py.
      discriminate.
    + rewrite IH. split.
      * intros H x [<- | Hx]; auto.
      * intros H x Hx. apply H. now right.
Qed.

Lemma arrayIncludes_In (arr : list string) (x : string) :
  arrayIncludes arr x = true <-> In x arr.
Proof.
  induction arr as [|y arr IH]; simpl.
  - split; [discriminate | contradiction].
  - rewrite orb_true_iff, String.eqb_eq, IH. tauto.
Qed.

End JSFacts.

(* ================================================================== *)
(** * Facts about the checksum *)
(* ================================================================== *)

Module CrcFacts.

Import Crc.

(** The table is the one the polynomial [0x07] generates. *)
Lemma TABLE_generated :
  TABLE = map tableEntry (map Z.of_nat (seq 0 256)).
Proof. vm_compute. reflexivity. Qed.

Lemma land_255_range (a : Z) : 0 <= Z.land a 255 < 256.
Proof.
  change 255 with (Z.ones 8). rewrite Z.land_ones by lia.
  change (2 ^ 8) with 256. apply Z.mod_pos_bound. lia.
Qed.

Lemma update_range (crc byte : Z) : 0 <= update crc byte < 256.
Proof. unfold update. apply land_255_range. Qed.

Lemma calculate_range (buf : list Z) (previous : Z) :
  0 <= previous < 256 -> 0 <= calculate buf previous < 256.
Proof.
  unfold calculate. revert previous.
  induction buf as [|b buf IH]; intros previous H; simpl; [exact H|].
  apply IH, update_range.
Qed.

(** The checksum is an 8-bit value. *)
Lemma crc8_range (value : string) : 0 <= crc8 value < 256.
Proof. unfold crc8. apply calculate_range. lia. Qed.

(** The textbook check value of CRC-8. *)
Example crc8_check_value : crc8 "123456789" = 244.
Proof. vm_compute. reflexivity. Qed.

(** A code unit above 127 ([U+00E9]) is hashed as its two UTF-8 bytes. *)
Example crc8_two_bytes :
  createBuffer (String (ascii_of_nat 233) EmptyString) = [195; 169] /\
  crc8 (String (ascii_of_nat 233) EmptyString) = 132.
Proof. vm_compute. split; reflexivity. Qed.

End CrcFacts.

(* ================================================================== *)
(** * Properties of index.ts *)
(* ================================================================== *)

Module HighlighterFacts.

Import JS JSFacts Highlighter.

(** ** Name-like tokens and the colour table *)

Lemma isNameScope_spec (scope : string) :
  isNameScope scope = true <->
  (exists rest, scope = "entity.name" ++ rest) \/
  (exists rest, scope = "variable" ++ rest).
Proof.
  unfold isNameScope. now rewrite orb_true_iff, !startsWith_spec.
Qed.

Lemma nameLike_existsb (token : Token) :
  nameLike token <-> existsb isNameScope (scopes token) = true.
Proof.
  unfold nameLike. rewrite existsb_exists. split.
  - intros (scope & Hin & H). exists scope. now rewrite isNameScope_spec.
  - intros (scope & Hin & H). exists scope. now rewrite <- isNameScope_spec.
Qed.

Lemma nameLike_findIndex (token : Token) :
  nameLike token <-> negb (findIndex (scopes token) isNameScope =? -1) = true.
Proof. now rewrite findIndex_found, nameLike_existsb. Qed.

Lemma htmlColors_length : List.length htmlColors = 60%nat.
Proof. reflexivity. Qed.

(** The index the code computes with [%] is the mathematical residue. *)
Lemma colorIndex_mod (value : string) :
  Z.rem (Crc.crc8 value) (Z.of_nat (List.length htmlColors))
  = Crc.crc8 value mod 60.
Proof.
  rewrite htmlColors_length. change (Z.of_nat 60) with 60.
  apply Z.rem_mod_nonneg; [apply CrcFacts.crc8_range | lia].
Qed.

Lemma index_in_bounds (A : Type) (arr : list A) (i : Z) :
  0 <= i < Z.of_nat (List.length arr) ->
  exists x, nth_error arr (Z.to_nat i) = Some x /\ index arr i = Some x.
Proof.
  intros H. unfold index.
  destruct (i <? 0) eqn:E; [apply Z.ltb_lt in E; lia|].
  destruct (nth_error arr (Z.to_nat i)) as [x|] eqn:N.
  - now exists x.
  - apply nth_error_None in N. lia.
Qed.

(** The style attribute of a name-like token, with its colour looked up
    inside the table. *)
Lemma style_of_nameLike (token : Token) :
  nameLike token ->
  exists color,
    nth_error htmlColors (Z.to_nat (Crc.crc8 (text token) mod 60)) = Some color /\
    styleAttributeForToken token = "style=" ++ dq ++ "color: " ++ color ++ dq.
Proof.
  intros NL. apply nameLike_findIndex in NL.
  unfold styleAttributeForToken. rewrite NL, colorIndex_mod.
  destruct (index_in_bounds _ htmlColors (Crc.crc8 (text token) mod 60))
    as (color & Hnth & Hidx).
  { rewrite htmlColors_length. change (Z.of_nat 60) with 60.
    apply Z.mod_pos_bound. lia. }
  exists color. split; [exact Hnth|]. now rewrite Hidx.
Qed.

Lemma style_of_not_nameLike (token : Token) :
  ~ nameLike token -> styleAttributeForToken token = EmptyString.
Proof.
  intros NL. unfold styleAttributeForToken.
  destruct (negb (findIndex (scopes token) isNameScope =? -1)) eqn:E;
    [|reflexivity].
  now apply nameLike_findIndex in E.
Qed.

(** C1. For every name-like token the style attribute carries the colour
    [htmlColors[crc8(text) mod 60]]; the index lies in [0, 59], so the
    lookup is inside the 60-entry table; and two name-like tokens with the
    same text get the same style attribute. *)
Theorem nameLike_color (token : Token) :
  nameLike token ->
  0 <= Crc.crc8 (text token) mod 60 <= 59 /\
  (exists color,
     nth_error htmlColors (Z.to_nat (Crc.crc8 (text token) mod 60)) = Some color /\
     styleAttributeForToken token = "style=" ++ dq ++ "color: " ++ color ++ dq) /\
  (forall token', nameLike token' -> text token' = text token ->
     styleAttributeForToken token' = styleAttributeForToken token).
Proof.
  intros NL. split; [|split].
  - pose proof (Z.mod_pos_bound (Crc.crc8 (text token)) 60). lia.
  - now apply style_of_nameLike.
  - intros token' NL' Htext.
    destruct (style_of_nameLike token NL) as (c & Hc & ->).
    destruct (style_of_nameLike token' NL') as (c' & Hc' & ->).
    rewrite Htext in Hc'. congruence.
Qed.

Lemma nameLike_color_witness :
  0 <= Crc.crc8 "x" mod 60 <= 59 /\
  (exists color,
     nth_error htmlColors (Z.to_nat (Crc.crc8 "x" mod 60)) = Some color /\
     styleAttributeForToken
       {| text := "x"; scopes := ["source.ts"; "variable.other.readwrite.ts"] |}
     = "style=" ++ dq ++ "color: " ++ color ++ dq) /\
  (forall token', nameLike token' -> text token' = "x" ->
     styleAttributeForToken token'
     = styleAttributeForToken
         {| text := "x"; scopes := ["source.ts"; "variable.other.readwrite.ts"] |}).
Proof.
  apply (nameLike_color
           {| text := "x"; scopes := ["source.ts"; "variable.other.readwrite.ts"] |}).
  apply nameLike_existsb. reflexivity.
Defined.

(** The scenario of the spec: [x] scoped [variable.other.readwrite] gets
    the colour at index [crc8("x") mod 60 = 51]. *)
Example style_of_x :
  styleAttributeForToken
    {| text := "x"; scopes := ["source.ts"; "variable.other.readwrite.ts"] |}
  = "style=" ++ dq ++ "color: #c689c8" ++ dq
  /\ Crc.crc8 "x" mod 60 = 51
  /\ nth_error htmlColors 51 = Some "#c689c8".
Proof. repeat split. Qed.

(** ** Rendering *)

Lemma fold_spans (line : list Token) (html : string) :
  fold_left (fun html token => html ++ spanOf token) line html
  = html ++ concatAll (map spanOf line).
Proof.
  revert html; induction line as [|token line IH]; intros html; simpl.
  - now rewrite append_empty_r.
  - now rewrite IH, append_assoc.
Qed.

Lemma fold_lines (lines : list (list Token)) (html : string) :
  fold_left
    (fun html line =>
       fold_left (fun html token => html ++ spanOf token) line html ++ "<br>")
    lines html
  = html ++ concatAll (map renderLine lines).
Proof.
  revert html; induction lines as [|line lines IH]; intros html; simpl.
  - now rewrite append_empty_r.
  - rewrite IH, fold_spans. unfold renderLine. now rewrite !append_assoc.
Qed.

(** The loops of [tokenizedFileToHTML] build the rendering of the spec. *)
Lemma tokenizedFileToHTML_render (lines : list (list Token)) :
  tokenizedFileToHTML lines = render lines.
Proof.
  unfold tokenizedFileToHTML, render. rewrite fold_lines.
  now rewrite append_assoc.
Qed.

(** C5. The output is [<pre><code>], then for each line in order one span
    per token (title: the scopes joined by a comma in their order; content:
    the text as it is) followed by one [<br>], then [</code></pre>]. *)
Theorem rendered_output (lines : list (list Token)) :
  tokenizedFileToHTML lines
  = "<pre><code>"
    ++ concatAll
         (map (fun line =>
                 concatAll
                   (map (fun token =>
                           "<span " ++ styleAttributeForToken token
                             ++ " title=" ++ dq
                             ++ String.concat "," (scopes token) ++ dq ++ ">"
                             ++ text token ++ "</span>")
                        line)
                 ++ "<br>")
              lines)
    ++ "</code></pre>".
Proof. apply tokenizedFileToHTML_render. Qed.

(** Two lines, the first with two tokens, rendered in order. *)
Example two_lines_rendered :
  tokenizedFileToHTML
    [ [ {| text := "a<b"; scopes := ["source.ts"; "meta.x"] |};
        {| text := "&"; scopes := [] |} ];
      [] ]
  = "<pre><code><span  title=" ++ dq ++ "source.ts,meta.x" ++ dq ++ ">a<b</span>"
    ++ "<span  title=" ++ dq ++ dq ++ ">&</span><br><br></code></pre>".
Proof. reflexivity. Qed.

(** ** The tokenizer *)

Section TokenizerFacts.

Context {StateStack : Type}.
Variable INITIAL : StateStack.
Variable grammar : vscodeTextmate.IGrammar StateStack.

Lemma tokenizeFrom_length (codeLines : list string) (ruleStack : StateStack) :
  List.length (tokenizeFrom grammar ruleStack codeLines)
  = List.length codeLines.
Proof.
  revert ruleStack; induction codeLines as [|l rest IH]; intros rs; simpl;
    [reflexivity | now rewrite IH].
Qed.

(** Each yield is built from the result of the call made for its line. *)
Lemma tokenizeFrom_calls (codeLines : list string) (ruleStack : StateStack) :
  tokenizeFrom grammar ruleStack codeLines
  = map (fun c =>
           codeLineTokens (fst c)
             (vscodeTextmate.tokens
                (vscodeTextmate.tokenizeLine grammar (fst c) (snd c))))
        (tokenizeLineCalls grammar ruleStack codeLines).
Proof.
  revert ruleStack; induction codeLines as [|l rest IH]; intros rs; simpl;
    [reflexivity | now rewrite IH].
Qed.

Lemma tokenizeLineCalls_lines (codeLines : list string) (ruleStack : StateStack) :
  map fst (tokenizeLineCalls grammar ruleStack codeLines) = codeLines.
Proof.
  revert ruleStack; induction codeLines as [|l rest IH]; intros rs; simpl;
    [reflexivity | now rewrite IH].
Qed.

End TokenizerFacts.

(** C4. [tokenize] yields one token list per segment of the input between
    line feeds: one more than the number of line feeds. *)
Theorem line_count (StateStack : Type) (INITIAL : StateStack)
    (grammar : vscodeTextmate.IGrammar StateStack) (code : string) :
  List.length (tokenize INITIAL code grammar) = List.length (split code LF) /\
  List.length (split code LF) = S (occurrences LF code) /\
  join (split code LF) (String LF EmptyString) = code /\
  List.length (tokenize INITIAL ("a" ++ String LF "b") grammar) = 2%nat /\
  List.length (tokenize INITIAL ("a" ++ String LF "b" ++ String LF EmptyString)
                        grammar) = 3%nat /\
  List.length (tokenize INITIAL EmptyString grammar) = 1%nat.
Proof.
  unfold tokenize. rewrite !tokenizeFrom_length.
  repeat split; auto using split_length, split_join.
Qed.

(** The segments of the three inputs of C4. *)
Example split_examples :
  split ("a" ++ String LF "b") LF = ["a"; "b"] /\
  split ("a" ++ String LF "b" ++ String LF EmptyString) LF
  = ["a"; "b"; EmptyString] /\
  split EmptyString LF = [EmptyString].
Proof. repeat split. Qed.

(** ** Coverage *)

Lemma codeLineTokens_covers (codeLine : string)
    (spans : list vscodeTextmate.IToken) (a : Z) :
  0 <= a ->
  covers a (Z.of_nat (String.length codeLine)) spans ->
  concatAll (map text (codeLineTokens codeLine spans))
  = String.substring (Z.to_nat a)
      (Z.to_nat (Z.of_nat (String.length codeLine) - a)) codeLine.
Proof.
  set (len := Z.of_nat (String.length codeLine)).
  revert a; induction spans as [|token rest IH]; intros a Ha C; simpl in *.
  - subst a. rewrite Z.sub_diag. simpl. now rewrite substring_zero_length.
  - destruct C as (Hs & He & C).
    assert (0 <= vscodeTextmate.endIndex token) as Hpos by lia.
    rewrite Hs, (IH _ Hpos C).
    rewrite substring_in_range by (fold len; lia).
    set (e := vscodeTextmate.endIndex token) in *.
    replace (Z.to_nat e) with (Z.to_nat a + Z.to_nat (e - a))%nat by lia.
    replace (Z.to_nat (len - a))
      with (Z.to_nat (e - a) + Z.to_nat (len - e))%nat by lia.
    apply substring_append. unfold len in *. lia.
Qed.

(** C3. When every call of [tokenizeLine] that [tokenize] makes returns
    spans that cover its line without gaps or overlaps, the texts of each
    yielded token list, concatenated in order, are exactly the line. *)
Theorem coverage (StateStack : Type) (INITIAL : StateStack)
    (grammar : vscodeTextmate.IGrammar StateStack) (code : string) :
  (forall codeLine ruleStack,
     In (codeLine, ruleStack)
        (tokenizeLineCalls grammar INITIAL (split code LF)) ->
     covers 0 (Z.of_nat (String.length codeLine))
       (vscodeTextmate.tokens
          (vscodeTextmate.tokenizeLine grammar codeLine ruleStack))) ->
  map (fun codeLineTokens => concatAll (map text codeLineTokens))
      (tokenize INITIAL code grammar)
  = split code LF.
Proof.
  intros H. unfold tokenize. rewrite tokenizeFrom_calls, map_map.
  rewrite <- (tokenizeLineCalls_lines grammar (split code LF) INITIAL) at 2.
  apply map_ext_in. intros [codeLine ruleStack] Hin. simpl.
  rewrite (codeLineTokens_covers codeLine _ 0 (Z.le_refl 0) (H _ _ Hin)).
  rewrite Z.sub_0_r, Nat2Z.id. apply substring_whole.
Qed.

Lemma coverage_witness :
  map (fun codeLineTokens => concatAll (map text codeLineTokens))
      (tokenize tt ("ab" ++ String LF "c") wholeLineGrammar)
  = split ("ab" ++ String LF "c") LF.
Proof.
  apply (coverage unit tt wholeLineGrammar ("ab" ++ String LF "c")).
  intros codeLine ruleStack _. simpl. lia.
Defined.

(** ** Left-to-right flow of the rule stack *)

Section StackFlow.

Context {StateStack : Type}.
Variable grammar : vscodeTextmate.IGrammar StateStack.

Lemma firstn_tokenizeFrom (k : nat) (codeLines : list string)
    (ruleStack : StateStack) :
  firstn k (tokenizeFrom grammar ruleStack codeLines)
  = tokenizeFrom grammar ruleStack (firstn k codeLines).
Proof.
  revert k ruleStack; induction codeLines as [|l rest IH]; intros [|k] rs;
    simpl; try reflexivity.
  now rewrite IH.
Qed.

Lemma ruleStackBefore_shift (l : string) (rest : list string)
    (ruleStack : StateStack) (i : nat) :
  ruleStackBefore ruleStack grammar (l :: rest) (S i)
  = ruleStackBefore
      (vscodeTextmate.ruleStack
         (vscodeTextmate.tokenizeLine grammar l ruleStack))
      grammar rest i.
Proof.
  induction i as [|i IH]; [reflexivity|].
  change (ruleStackBefore ruleStack grammar (l :: rest) (S (S i)))
    with (vscodeTextmate.ruleStack
            (vscodeTextmate.tokenizeLine grammar (nth i rest EmptyString)
               (ruleStackBefore ruleStack grammar (l :: rest) (S i)))).
  now rewrite IH.
Qed.

(** The call for line [i] is made with the stack held before line [i]. *)
Lemma tokenizeLineCalls_nth (codeLines : list string)
    (ruleStack : StateStack) (i : nat) (codeLine : string) :
  nth_error codeLines i = Some codeLine ->
  nth_error (tokenizeLineCalls grammar ruleStack codeLines) i
  = Some (codeLine, ruleStackBefore ruleStack grammar codeLines i).
Proof.
  revert ruleStack i; induction codeLines as [|l rest IH]; intros rs [|i] H;
    simpl in H; try discriminate.
  - now injection H as ->.
  - rewrite ruleStackBefore_shift. simpl. now apply IH.
Qed.

End StackFlow.

(** C6. The stack passed for line 0 is [INITIAL], the stack passed for each
    later line is the one the call before returned, every yield is built
    from its own call alone, and two inputs with the same first [k] lines
    yield the same first [k] token lists. *)
Theorem left_to_right (StateStack : Type) (INITIAL : StateStack)
    (grammar : vscodeTextmate.IGrammar StateStack)
    (code1 code2 : string) (k : nat) :
  firstn k (split code1 LF) = firstn k (split code2 LF) ->
  firstn k (tokenize INITIAL code1 grammar)
  = firstn k (tokenize INITIAL code2 grammar) /\
  (forall i codeLine,
     nth_error (split code1 LF) i = Some codeLine ->
     nth_error (tokenizeLineCalls grammar INITIAL (split code1 LF)) i
     = Some (codeLine, ruleStackBefore INITIAL grammar (split code1 LF) i) /\
     nth_error (tokenize INITIAL code1 grammar) i
     = Some (codeLineTokens codeLine
               (vscodeTextmate.tokens
                  (vscodeTextmate.tokenizeLine grammar codeLine
                     (ruleStackBefore INITIAL grammar (split code1 LF) i))))) /\
  ruleStackBefore INITIAL grammar (split code1 LF) 0 = INITIAL /\
  (forall i,
     ruleStackBefore INITIAL grammar (split code1 LF) (S i)
     = vscodeTextmate.ruleStack
         (vscodeTextmate.tokenizeLine grammar
            (nth i (split code1 LF) EmptyString)
            (ruleStackBefore INITIAL grammar (split code1 LF) i))).
Proof.
  intros H. split; [|split; [|split]].
  - unfold tokenize. now rewrite !firstn_tokenizeFrom, H.
  - intros i codeLine Hi.
    pose proof (tokenizeLineCalls_nth grammar _ INITIAL i codeLine Hi) as Hc.
    split; [exact Hc|].
    unfold tokenize. rewrite tokenizeFrom_calls, nth_error_map, Hc.
    reflexivity.
  - reflexivity.
  - reflexivity.
Qed.

Lemma left_to_right_witness :
  firstn 2 (tokenize false ("x" ++ String LF "/*" ++ String LF "y") commentGrammar)
  = firstn 2 (tokenize false
                ("x" ++ String LF "/*" ++ String LF "z" ++ String LF "w")
                commentGrammar).
Proof.
  apply (left_to_right bool false commentGrammar
           ("x" ++ String LF "/*" ++ String LF "y")
           ("x" ++ String LF "/*" ++ String LF "z" ++ String LF "w") 2).
  reflexivity.
Defined.

(** The stack does carry over: the third line is read inside the comment
    that the second line opened. *)
Example stack_is_threaded :
  tokenize false ("x" ++ String LF "/*" ++ String LF "y") commentGrammar
  = [ [ {| text := "x";
           scopes := ["source.ts"; "variable.other.readwrite.ts"] |} ];
      [ {| text := "/*";
           scopes := ["source.ts"; "variable.other.readwrite.ts"] |} ];
      [ {| text := "y"; scopes := ["source.ts"; "comment.block.ts"] |} ] ].
Proof. reflexivity. Qed.

(** ** The empty input *)

Lemma substring_of_empty (a b : Z) : substring EmptyString a b = EmptyString.
Proof.
  unfold substring, clamp. simpl.
  replace (Z.min (Z.max a 0) 0) with 0 by lia.
  replace (Z.min (Z.max b 0) 0) with 0 by lia.
  reflexivity.
Qed.

Lemma codeLineTokens_of_empty (spans : list vscodeTextmate.IToken) (token : Token) :
  In token (codeLineTokens EmptyString spans) -> text token = EmptyString.
Proof.
  unfold codeLineTokens. rewrite in_map_iff. intros (span & <- & _).
  apply substring_of_empty.
Qed.

(** C8, as the code has it.  On the empty input [tokenize] makes one call,
    on the empty line with the initial stack, and yields one token list: one
    token with empty text per span the engine returns.  When the engine
    returns no span, the list is empty and the output is
    [<pre><code><br></code></pre>]. *)
Theorem empty_input (StateStack : Type) (INITIAL : StateStack)
    (grammar : vscodeTextmate.IGrammar StateStack) :
  let spans :=
    vscodeTextmate.tokens
      (vscodeTextmate.tokenizeLine grammar EmptyString INITIAL) in
  tokenizeLineCalls grammar INITIAL (split EmptyString LF)
  = [(EmptyString, INITIAL)] /\
  tokenize INITIAL EmptyString grammar = [codeLineTokens EmptyString spans] /\
  List.length (codeLineTokens EmptyString spans) = List.length spans /\
  (forall token, In token (codeLineTokens EmptyString spans) ->
     text token = EmptyString) /\
  (spans = [] ->
     tokenize INITIAL EmptyString grammar = [[]] /\
     tokenizedFileToHTML (tokenize INITIAL EmptyString grammar)
     = "<pre><code><br></code></pre>").
Proof.
  intros spans. repeat split.
  - unfold codeLineTokens. apply length_map.
  - apply codeLineTokens_of_empty.
  - unfold tokenize. simpl. fold spans. now rewrite H.
  - unfold tokenize. simpl. fold spans. now rewrite H.
Qed.

Lemma empty_input_witness :
  tokenize tt EmptyString silentGrammar = [[]] /\
  tokenizedFileToHTML (tokenize tt EmptyString silentGrammar)
  = "<pre><code><br></code></pre>".
Proof.
  apply (empty_input unit tt silentGrammar). reflexivity.
Defined.

(** C8 as stated fails for an engine that answers the empty line with a
    span: the one yielded list is not empty and a span is rendered. *)
Lemma empty_input_counterexample :
  tokenize tt EmptyString wholeLineGrammar
  = [[ {| text := EmptyString; scopes := ["source.ts"] |} ]] /\
  tokenize tt EmptyString wholeLineGrammar <> [[]] /\
  tokenizedFileToHTML (tokenize tt EmptyString wholeLineGrammar)
  = "<pre><code><span  title=" ++ dq ++ "source.ts" ++ dq
    ++ "></span><br></code></pre>" /\
  tokenizedFileToHTML (tokenize tt EmptyString wholeLineGrammar)
  <> "<pre><code><br></code></pre>".
Proof. repeat split; discriminate. Qed.

(** ** Totality of styling and rendering *)

Lemma style_cases (token : Token) :
  styleAttributeForToken token = EmptyString \/
  exists color,
    In color htmlColors /\
    styleAttributeForToken token = "style=" ++ dq ++ "color: " ++ color ++ dq.
Proof.
  destruct (existsb isNameScope (scopes token)) eqn:E.
  - right. apply nameLike_existsb in E.
    destruct (style_of_nameLike token E) as (color & Hnth & Hs).
    exists color. split; [now apply nth_error_In in Hnth | exact Hs].
  - left. apply style_of_not_nameLike. rewrite nameLike_existsb. congruence.
Qed.

(** C10. Every token has a style attribute that is either empty or a
    colour of the table (the lookup never leaves the table), and every
    token list renders.  A token without scopes is not name-like and renders
    with an empty title; a name-like token with empty text gets the colour
    at index [crc8("") mod 60 = 0]. *)
Theorem styling_total :
  (forall token,
     styleAttributeForToken token = EmptyString \/
     exists color,
       In color htmlColors /\
       styleAttributeForToken token
       = "style=" ++ dq ++ "color: " ++ color ++ dq) /\
  (forall lines, tokenizedFileToHTML lines = render lines) /\
  (forall t,
     ~ nameLike {| text := t; scopes := [] |} /\
     styleAttributeForToken {| text := t; scopes := [] |} = EmptyString /\
     tokenizedFileToHTML [[ {| text := t; scopes := [] |} ]]
     = "<pre><code><span  title=" ++ dq ++ dq ++ ">" ++ t
       ++ "</span><br></code></pre>") /\
  (0 <= Crc.crc8 EmptyString mod 60 <= 59 /\
   nth_error htmlColors (Z.to_nat (Crc.crc8 EmptyString mod 60))
   = Some "#d78797") /\
  (forall sc,
     nameLike {| text := EmptyString; scopes := sc |} ->
     styleAttributeForToken {| text := EmptyString; scopes := sc |}
     = "style=" ++ dq ++ "color: #d78797" ++ dq).
Proof.
  split; [exact style_cases|].
  split; [exact tokenizedFileToHTML_render|].
  split; [|split].
  - intros t. split; [|split].
    + intros (scope & [] & _).
    + reflexivity.
    + rewrite tokenizedFileToHTML_render. unfold render, renderLine, spanOf.
      simpl. now rewrite !append_empty_r, !append_assoc.
  - split; [vm_compute; split; discriminate | reflexivity].
  - intros sc NL. destruct (style_of_nameLike _ NL) as (color & Hnth & ->).
    simpl in Hnth. now injection Hnth as <-.
Qed.

Lemma styling_total_witness :
  styleAttributeForToken {| text := EmptyString; scopes := ["variable"] |}
  = "style=" ++ dq ++ "color: #d78797" ++ dq.
Proof.
  apply styling_total. apply nameLike_existsb. reflexivity.
Defined.

(** ** Resolving a flag *)

Lemma flagMatches_spec (flag : string) (grammarInfo : GrammarInfo) :
  flagMatches flag grammarInfo = true <-> namesGrammar flag grammarInfo.
Proof.
  unfold flagMatches, namesGrammar.
  rewrite orb_true_iff, String.eqb_eq.
  destruct (aliases grammarInfo) as [al|].
  - rewrite arrayIncludes_In. split.
    + intros [H | H]; [now left | right; now exists al].
    + intros [H | (al' & [= <-] & H)]; [now left | now right].
  - split.
    + intros [H | H]; [now left | discriminate].
    + intros [H | (al' & H & _)]; [now left | discriminate].
Qed.

Lemma flagMatches_false (flag : string) (grammarInfo : GrammarInfo) :
  flagMatches flag grammarInfo = false <-> ~ namesGrammar flag grammarInfo.
Proof.
  rewrite <- flagMatches_spec. destruct (flagMatches flag grammarInfo);
    split; congruence.
Qed.

Lemma flagToGrammarInfo_some (grammars : list GrammarInfo) (flag : string)
    (grammarInfo : GrammarInfo) :
  flagToGrammarInfo grammars flag = Some grammarInfo <->
  exists before after,
    grammars = (before ++ grammarInfo :: after)%list /\
    namesGrammar flag grammarInfo /\
    forall earlier, In earlier before -> ~ namesGrammar flag earlier.
Proof.
  unfold flagToGrammarInfo. rewrite find_some.
  split; intros (before & after & -> & M & Hb); exists before, after;
    (repeat split; [now apply flagMatches_spec|]);
    intros earlier Hin; now apply flagMatches_false, Hb.
Qed.

Lemma flagToGrammarInfo_none (grammars : list GrammarInfo) (flag : string) :
  flagToGrammarInfo grammars flag = None <->
  forall grammarInfo, In grammarInfo grammars ->
    ~ namesGrammar flag grammarInfo.
Proof.
  unfold flagToGrammarInfo. rewrite find_none.
  split; intros H grammarInfo Hin; now apply flagMatches_false, H.
Qed.

(** C9. A flag resolves to the first grammar of the list that it names,
    by its name or by one of its aliases, compared as strings; it resolves
    to nothing exactly when it names no grammar of the list. *)
Theorem flag_resolution (grammars : list GrammarInfo) (flag : string) :
  (forall grammarInfo,
     flagToGrammarInfo grammars flag = Some grammarInfo <->
     exists before after,
       grammars = (before ++ grammarInfo :: after)%list /\
       namesGrammar flag grammarInfo /\
       forall earlier, In earlier before -> ~ namesGrammar flag earlier) /\
  (flagToGrammarInfo grammars flag = None <->
   forall grammarInfo, In grammarInfo grammars ->
     ~ namesGrammar flag grammarInfo).
Proof.
  split.
  - intros grammarInfo. apply flagToGrammarInfo_some.
  - apply flagToGrammarInfo_none.
Qed.

(** In the sample list [ts] is an alias of the first entry and the name of
    the third: the first wins.  The comparison is case-sensitive. *)
Example sample_flags_resolved :
  flagToGrammarInfo sampleGrammars "ts"
  = Some {| name := "typescript"; scopeName := "source.ts";
            aliases := Some ["ts"] |} /\
  flagToGrammarInfo sampleGrammars "haskell"
  = Some {| name := "haskell"; scopeName := "source.haskell";
            aliases := Some ["hs"] |} /\
  flagToGrammarInfo sampleGrammars "TS" = None /\
  flagToGrammarInfo sampleGrammars "t" = None.
Proof. repeat split. Qed.

(** ** Failures of [highlight] *)

Section HighlightFacts.

Context {StateStack : Type}.
Variable INITIAL : StateStack.
Variable grammars : list GrammarInfo.
Variable loadGrammar : string -> option (vscodeTextmate.IGrammar StateStack).

(** What [highlight] does in each of its three cases. *)
Lemma highlight_cases (code flag : string) :
  highlight INITIAL grammars loadGrammar code flag
  = match flagToGrammarInfo grammars flag with
    | None => ([], Thrown ("Failed to find grammar for flag " ++ flag))
    | Some grammarInfo =>
        match loadGrammar (scopeName grammarInfo) with
        | None =>
            ([LoadGrammar (scopeName grammarInfo)],
             Thrown ("Failed to load grammar for scope name "
                       ++ scopeName grammarInfo))
        | Some grammar =>
            (LoadGrammar (scopeName grammarInfo)
               :: map (fun c => TokenizeLine (fst c) (snd c))
                      (tokenizeLineCalls grammar INITIAL (split code LF)),
             Returned (tokenizedFileToHTML (tokenize INITIAL code grammar)))
        end
    end.
Proof.
  unfold highlight. destruct (flagToGrammarInfo grammars flag) as [gi|];
    [|reflexivity].
  unfold bind, registryLoadGrammar, runTokenize, ret, throw.
  destruct (loadGrammar (scopeName gi)) as [g|]; simpl; [|reflexivity].
  now rewrite app_nil_r.
Qed.

End HighlightFacts.

(** C7. A flag that names no grammar makes [highlight] throw an error that
    ends with the flag, with no call to the engine at all.  A grammar that
    the registry does not return makes it throw an error that ends with the
    scope name, after the one [loadGrammar] call.  Whenever [highlight]
    throws, no line was tokenized; whenever it returns, the fragment is the
    rendering under the grammar loaded for the resolved scope name.  (The
    registry and the engine are total functions here, so the throws spoken
    of are the two of [highlight] itself.) *)
Theorem highlight_failures (StateStack : Type) (INITIAL : StateStack)
    (grammars : list GrammarInfo)
    (loadGrammar : string -> option (vscodeTextmate.IGrammar StateStack))
    (code flag : string) :
  ((forall grammarInfo, In grammarInfo grammars ->
      ~ namesGrammar flag grammarInfo) ->
   highlight INITIAL grammars loadGrammar code flag
   = ([], Thrown ("Failed to find grammar for flag " ++ flag))) /\
  (forall grammarInfo,
     flagToGrammarInfo grammars flag = Some grammarInfo ->
     loadGrammar (scopeName grammarInfo) = None ->
     highlight INITIAL grammars loadGrammar code flag
     = ([LoadGrammar (scopeName grammarInfo)],
        Thrown ("Failed to load grammar for scope name "
                  ++ scopeName grammarInfo))) /\
  (forall calls message,
     highlight INITIAL grammars loadGrammar code flag = (calls, Thrown message) ->
     forall codeLine ruleStack, ~ In (TokenizeLine codeLine ruleStack) calls) /\
  (forall calls html,
     highlight INITIAL grammars loadGrammar code flag = (calls, Returned html) ->
     exists grammarInfo grammar,
       flagToGrammarInfo grammars flag = Some grammarInfo /\
       loadGrammar (scopeName grammarInfo) = Some grammar /\
       html = tokenizedFileToHTML (tokenize INITIAL code grammar)).
Proof.
  rewrite highlight_cases. split; [|split; [|split]].
  - intros H. apply flagToGrammarInfo_none in H. now rewrite H.
  - intros gi Hgi Hload. now rewrite Hgi, Hload.
  - intros calls message.
    destruct (flagToGrammarInfo grammars flag) as [gi|].
    + destruct (loadGrammar (scopeName gi)) as [g|]; [discriminate|].
      intros [= <- _] codeLine ruleStack [H | []]. discriminate.
    + intros [= <- _] codeLine ruleStack [].
  - intros calls html.
    destruct (flagToGrammarInfo grammars flag) as [gi|]; [|discriminate].
    destruct (loadGrammar (scopeName gi)) as [g|] eqn:Hload; [|discriminate].
    intros [= _ <-]. now exists gi, g.
Qed.

Lemma highlight_failures_witness :
  highlight false sampleGrammars (fun _ => Some commentGrammar)
    "let x = 1;" "not-a-real-language"
  = ([], Thrown "Failed to find grammar for flag not-a-real-language") /\
  highlight false sampleGrammars
    (fun _ => @None (vscodeTextmate.IGrammar bool)) "let x = 1;" "hs"
  = ([LoadGrammar "source.haskell"],
     Thrown "Failed to load grammar for scope name source.haskell").
Proof.
  split.
  - apply (highlight_failures bool false sampleGrammars
             (fun _ => Some commentGrammar) "let x = 1;" "not-a-real-language").
    intros grammarInfo Hin. apply flagMatches_false.
    simpl in Hin. decompose [or] Hin; subst; try reflexivity; contradiction.
  - apply (proj1 (proj2 (highlight_failures bool false sampleGrammars
                            (fun _ => None) "let x = 1;" "hs"))
             {| name := "haskell"; scopeName := "source.haskell";
                aliases := Some ["hs"] |});
      reflexivity.
Defined.

(** ** Colour style attributes in the output *)

Lemma style_nonempty_iff (token : Token) :
  styleAttributeForToken token <> EmptyString <-> nameLike token.
Proof.
  split.
  - intros H. destruct (existsb isNameScope (scopes token)) eqn:E.
    + now apply nameLike_existsb.
    + destruct H. apply style_of_not_nameLike.
      rewrite nameLike_existsb. congruence.
  - intros NL. destruct (style_of_nameLike token NL) as (color & _ & ->).
    discriminate.
Qed.

Lemma style_is_colorStyle (token : Token) :
  nameLike token ->
  startsWith (styleAttributeForToken token) colorStyle = true.
Proof.
  intros NL. destruct (style_of_nameLike token NL) as (color & _ & ->).
  reflexivity.
Qed.

Lemma spanOf_plain (token : Token) :
  ~ nameLike token -> spanOf token = plainSpanOf token.
Proof.
  intros NL. unfold spanOf, plainSpanOf.
  now rewrite (style_of_not_nameLike token NL).
Qed.

Lemma render_plain (lines : list (list Token)) :
  (forall line token, In line lines -> In token line -> ~ nameLike token) ->
  tokenizedFileToHTML lines = renderPlain lines.
Proof.
  intros H. rewrite tokenizedFileToHTML_render. unfold render, renderPlain.
  do 3 f_equal. apply map_ext_in. intros line Hline. unfold renderLine.
  do 2 f_equal. apply map_ext_in. intros token Htoken.
  apply spanOf_plain. now apply (H line).
Qed.

(** The literals of the template do not contain the word [style] and
    cannot complete one that started before them. *)
Lemma includes_after_open (X : string) :
  includes ("<span " ++ " title=" ++ dq ++ X) styleWord
  = includes X styleWord.
Proof. reflexivity. Qed.

Lemma includes_after_title (X : string) :
  includes (dq ++ ">" ++ X) styleWord = includes X styleWord.
Proof. reflexivity. Qed.

Lemma includes_after_comma (X : string) :
  includes ("," ++ X) styleWord = includes X styleWord.
Proof. reflexivity. Qed.

Lemma includes_after_close (X : string) :
  includes ("</span>" ++ X) styleWord = includes X styleWord.
Proof. reflexivity. Qed.

Lemma includes_after_br (X : string) :
  includes ("<br>" ++ X) styleWord = includes X styleWord.
Proof. reflexivity. Qed.

Lemma continues_title (X : string) :
  continues styleWord (dq ++ ">" ++ X) = false.
Proof. reflexivity. Qed.

Lemma continues_comma (X : string) :
  continues styleWord ("," ++ X) = false.
Proof. reflexivity. Qed.

Lemma continues_close (X : string) :
  continues styleWord ("</span>" ++ X) = false.
Proof. reflexivity. Qed.

Lemma includes_scopes (sc : list string) (X : string) :
  (forall scope, In scope sc -> includes scope styleWord = false) ->
  includes X styleWord = false ->
  includes (join sc "," ++ dq ++ ">" ++ X) styleWord = false.
Proof.
  intros Hsc HX. unfold join.
  induction sc as [|s sc IH].
  - simpl String.concat. change (EmptyString ++ ?Y) with Y.
    now rewrite includes_after_title.
  - destruct sc as [|s2 sc].
    + simpl String.concat. apply includes_append_false.
      * apply Hsc. now left.
      * now rewrite includes_after_title.
      * apply continues_title.
    + change (String.concat "," (s :: s2 :: sc))
        with (s ++ "," ++ String.concat "," (s2 :: sc)).
      rewrite !append_assoc. apply includes_append_false.
      * apply Hsc. now left.
      * rewrite includes_after_comma. apply IH.
        intros scope Hin. apply Hsc. now right.
      * apply continues_comma.
Qed.

Lemma includes_plainSpan (token : Token) (X : string) :
  hasNoStyleWord token ->
  includes X styleWord = false ->
  includes (plainSpanOf token ++ X) styleWord = false.
Proof.
  intros [Htext Hsc] HX. unfold plainSpanOf. rewrite !append_assoc.
  rewrite includes_after_open. apply includes_scopes; [exact Hsc|].
  apply includes_append_false.
  - exact Htext.
  - now rewrite includes_after_close.
  - apply continues_close.
Qed.

Lemma includes_plainLine (line : list Token) (X : string) :
  (forall token, In token line -> hasNoStyleWord token) ->
  includes X styleWord = false ->
  includes ((concatAll (map plainSpanOf line) ++ "<br>") ++ X) styleWord
  = false.
Proof.
  intros H HX. rewrite append_assoc.
  induction line as [|token line IH]; cbn [map concatAll].
  - change (EmptyString ++ ?Y) with Y. now rewrite includes_after_br.
  - rewrite append_assoc. apply includes_plainSpan.
    + apply H. now left.
    + apply IH. intros t Ht. apply H. now right.
Qed.

Lemma includes_renderPlain (lines : list (list Token)) :
  (forall line token, In line lines -> In token line ->
     hasNoStyleWord token) ->
  includes (renderPlain lines) styleWord = false.
Proof.
  intros H. unfold renderPlain.
  change (includes
            (concatAll
               (map (fun line => concatAll (map plainSpanOf line) ++ "<br>")
                    lines)
             ++ "</code></pre>") styleWord = false).
  induction lines as [|line lines IH]; cbn [map concatAll].
  - reflexivity.
  - rewrite append_assoc. apply includes_plainLine.
    + intros token Ht. apply (H line); [now left | exact Ht].
    + apply IH. intros l t Hl Ht. apply (H l); [now right | exact Ht].
Qed.

(** Lower-casing the rendering is rendering the lower-cased tokens: the
    literals of the template are in lower case. *)
Lemma asciiLower_append (a b : string) :
  asciiLower (a ++ b) = asciiLower a ++ asciiLower b.
Proof.
  induction a as [|c a IH]; simpl; [reflexivity | now rewrite IH].
Qed.

Lemma asciiLower_join (sc : list string) :
  asciiLower (join sc ",") = join (map asciiLower sc) ",".
Proof.
  unfold join. induction sc as [|s sc IH]; [reflexivity|].
  destruct sc as [|s2 sc]; [reflexivity|].
  change (String.concat "," (s :: s2 :: sc))
    with (s ++ "," ++ String.concat "," (s2 :: sc)).
  change (String.concat "," (map asciiLower (s :: s2 :: sc)))
    with (asciiLower s ++ ","
            ++ String.concat "," (map asciiLower (s2 :: sc))).
  now rewrite !asciiLower_append, IH.
Qed.

Lemma asciiLower_plainSpan (token : Token) :
  asciiLower (plainSpanOf token) = plainSpanOf (lowerToken token).
Proof.
  unfold plainSpanOf, lowerToken. cbn [text scopes].
  now rewrite !asciiLower_append, asciiLower_join.
Qed.

Lemma asciiLower_spans (line : list Token) :
  asciiLower (concatAll (map plainSpanOf line))
  = concatAll (map plainSpanOf (map lowerToken line)).
Proof.
  induction line as [|token line IH]; cbn [map concatAll]; [reflexivity|].
  now rewrite asciiLower_append, asciiLower_plainSpan, IH.
Qed.

Lemma asciiLower_renderPlain (lines : list (list Token)) :
  asciiLower (renderPlain lines)
  = renderPlain (map (map lowerToken) lines).
Proof.
  unfold renderPlain. rewrite !asciiLower_append.
  change (asciiLower "<pre><code>") with "<pre><code>".
  change (asciiLower "</code></pre>") with "</code></pre>".
  do 2 f_equal.
  induction lines as [|line lines IH]; cbn [map concatAll]; [reflexivity|].
  rewrite !asciiLower_append, asciiLower_spans, IH. reflexivity.
Qed.

Lemma lowerToken_hasNoStyleWord (token : Token) :
  freeOfStyle token -> hasNoStyleWord (lowerToken token).
Proof.
  intros [Htext Hsc]. split; [exact Htext|].
  intros scope Hin. cbn [lowerToken scopes] in Hin.
  apply in_map_iff in Hin as (sc & <- & Hin). now apply Hsc.
Qed.

(** Without any name-like token, and with no text and no scope spelling
    the word [style], the word is nowhere in the output. *)
Lemma no_style_in_output (lines : list (list Token)) :
  (forall line token, In line lines -> In token line -> ~ nameLike token) ->
  (forall line token, In line lines -> In token line -> freeOfStyle token) ->
  includes (asciiLower (tokenizedFileToHTML lines)) styleWord = false.
Proof.
  intros NL Free. rewrite (render_plain lines NL), asciiLower_renderPlain.
  apply includes_renderPlain. intros line token Hline Htoken.
  apply in_map_iff in Hline as (line0 & <- & Hline0).
  apply in_map_iff in Htoken as (token0 & <- & Htoken0).
  apply lowerToken_hasNoStyleWord. now apply (Free line0).
Qed.

(** C2, as the code has it.  The style slot of a span is a colour style
    attribute exactly when the token is name-like (a prefix match:
    [variableX] counts) and is empty otherwise.  A token list without
    name-like tokens renders every span without a style attribute of its
    own.  Text and scopes are copied in unescaped and can bring markup of
    their own; the fragment contains no style attribute at all, not even
    the word [style] in any letter case, when no token text and no scope
    contains that word. *)
Theorem style_iff_nameLike :
  (forall token,
     (styleAttributeForToken token <> EmptyString <-> nameLike token) /\
     (nameLike token ->
        startsWith (styleAttributeForToken token) colorStyle = true) /\
     (~ nameLike token -> spanOf token = plainSpanOf token)) /\
  nameLike {| text := "x"; scopes := ["variableX"] |} /\
  (forall lines,
     (forall line token, In line lines -> In token line -> ~ nameLike token) ->
     tokenizedFileToHTML lines = renderPlain lines /\
     ((forall line token, In line lines -> In token line ->
         freeOfStyle token) ->
      includes (asciiLower (tokenizedFileToHTML lines)) styleWord = false)).
Proof.
  split; [|split].
  - intros token. split; [apply style_nonempty_iff|].
    split; [apply style_is_colorStyle | apply spanOf_plain].
  - apply nameLike_existsb. reflexivity.
  - intros lines NL. split; [now apply render_plain|].
    intros Free. now apply no_style_in_output.
Qed.

Lemma not_nameLike_sample (token : Token) :
  In token
     [ {| text := "if"; scopes := ["source.ts"; "keyword.control.ts"] |};
       {| text := "// <b style=" ++ dq ++ "color: red" ++ dq ++ ">";
          scopes := ["source.ts"; "comment.line.double-slash.ts"] |};
       {| text := "// <b STYLE='color: red'>";
          scopes := ["source.ts"; "comment.line.double-slash.ts"] |};
       {| text := "x";
          scopes := ["source.ts"; "c" ++ dq ++ " style='color:red"] |} ] ->
  ~ nameLike token.
Proof.
  intros Hin. rewrite nameLike_existsb.
  simpl in Hin. decompose [or] Hin; subst; try discriminate; contradiction.
Qed.

Lemma style_iff_nameLike_witness :
  includes
    (asciiLower
       (tokenizedFileToHTML
          [[ {| text := "if";
                scopes := ["source.ts"; "keyword.control.ts"] |} ]]))
    styleWord
  = false.
Proof.
  apply (proj2 (proj2 style_iff_nameLike)
           [[ {| text := "if"; scopes := ["source.ts"; "keyword.control.ts"] |} ]]).
  - intros line token [<- | []] [<- | []].
    apply not_nameLike_sample. now left.
  - intros line token [<- | []] [<- | []]. split.
    + reflexivity.
    + intros scope [<- | [<- | []]]; reflexivity.
Defined.

(** C2 as stated fails: the comment token is not name-like, yet its text
    is copied into the output, where it is an element with a colour style
    attribute. *)
Lemma style_iff_nameLike_counterexample :
  (forall line token,
     In line markupInComment -> In token line -> ~ nameLike token) /\
  tokenizedFileToHTML markupInComment
  = "<pre><code><span  title=" ++ dq
    ++ "source.ts,comment.line.double-slash.ts" ++ dq ++ ">// <b style="
    ++ dq ++ "color: red" ++ dq ++ "></span><br></code></pre>" /\
  includes (tokenizedFileToHTML markupInComment)
           ("<b " ++ colorStyle ++ " red" ++ dq ++ ">") = true /\
  includes (asciiLower (tokenizedFileToHTML markupInComment)) styleWord = true.
Proof.
  split; [|repeat split; reflexivity].
  intros line token [<- | []] [<- | []].
  apply not_nameLike_sample. right. now left.
Qed.

(** Markup with single quotes or capitals in a text, and markup in a scope
    that closes the title attribute, arrive in the output too; they are
    tokens that spell the word [style]. *)
Example quoted_markup_arrives :
  (forall line token,
     In line quotedMarkup -> In token line -> ~ nameLike token) /\
  tokenizedFileToHTML quotedMarkup
  = "<pre><code><span  title=" ++ dq
    ++ "source.ts,comment.line.double-slash.ts" ++ dq
    ++ ">// <b STYLE='color: red'></span><span  title=" ++ dq
    ++ "source.ts,c" ++ dq ++ " style='color:red" ++ dq
    ++ ">x</span><br></code></pre>" /\
  includes (asciiLower (tokenizedFileToHTML quotedMarkup)) styleWord = true /\
  (forall line token,
     In line quotedMarkup -> In token line -> ~ freeOfStyle token).
Proof.
  split; [|split; [reflexivity | split; [reflexivity|]]].
  - intros line token [<- | []] [<- | [<- | []]];
      apply not_nameLike_sample; simpl; tauto.
  - intros line token [<- | []] [<- | [<- | []]] [Htext Hsc].
    + discriminate Htext.
    + specialize (Hsc ("c" ++ dq ++ " style='color:red")
                      (or_intror (or_introl eq_refl))).
      discriminate Hsc.
Qed.

End HighlighterFacts.

(* ================================================================== *)
(** * Further facts about the JavaScript primitives *)
(* ================================================================== *)

Module JSMoreFacts.

Import JS JSFacts.

Lemma append_inv_tail (a b c : string) : a ++ c = b ++ c -> a = b.
Proof.
  revert b; induction a as [|x a IH]; intros [|y b] H; simpl in H.
  - reflexivity.
  - apply (f_equal String.length) in H. simpl in H.
    rewrite append_length in H. lia.
  - apply (f_equal String.length) in H. simpl in H.
    rewrite append_length in H. lia.
  - injection H as -> H. f_equal. now apply IH.
Qed.

Lemma occurrences_append (c : ascii) (a b : string) :
  occurrences c (a ++ b) = (occurrences c a + occurrences c b)%nat.
Proof.
  induction a as [|x a IH]; simpl; [reflexivity | rewrite IH; lia].
Qed.

(** No segment of [split] contains the separator. *)
Lemma split_no_sep (s : string) (sep : ascii) :
  Forall (fun seg => occurrences sep seg = 0%nat) (split s sep).
Proof.
  induction s as [|c s IH]; simpl.
  - now repeat constructor.
  - destruct (Ascii.eqb c sep) eqn:E.
    + now constructor.
    + destruct (split s sep) as [|seg segs].
      { constructor; [simpl; now rewrite E | constructor]. }
      inversion IH as [|? ? Hseg Hsegs]; subst.
      constructor; [simpl; now rewrite E | exact Hsegs].
Qed.

(** Splitting at a separator that is known to be there. *)
Lemma split_append (a b : string) (sep : ascii) :
  split (a ++ String sep b) sep = (split a sep ++ split b sep)%list.
Proof.
  induction a as [|c a IH]; simpl.
  - now rewrite Ascii.eqb_refl.
  - destruct (Ascii.eqb c sep); [now rewrite IH|].
    rewrite IH. pose proof (split_nonempty a sep).
    destruct (split a sep); [contradiction | reflexivity].
Qed.

Lemma substring_prefix (s : string) (m : nat) :
  exists after, s = String.substring 0 m s ++ after.
Proof.
  revert m; induction s as [|c s IH]; intros [|m]; simpl.
  - now exists EmptyString.
  - now exists EmptyString.
  - now exists (String c s).
  - destruct (IH m) as [after H]. exists after. now rewrite <- H.
Qed.

(** A slice of a string is a contiguous part of it, whatever the indices. *)
Lemma substring_infix (s : string) (n m : nat) :
  exists before after, s = before ++ String.substring n m s ++ after.
Proof.
  revert n; induction s as [|c s IH]; intros [|n].
  - destruct (substring_prefix EmptyString m) as [after H].
    now exists EmptyString, after.
  - exists EmptyString, EmptyString. reflexivity.
  - destruct (substring_prefix (String c s) m) as [after H].
    now exists EmptyString, after.
  - destruct (IH n) as (before & after & H).
    exists (String c before), after. simpl. now rewrite <- H.
Qed.

Lemma substring_length (s : string) (n m : nat) :
  String.length (String.substring n m s)
  = Nat.min m (String.length s - n).
Proof.
  revert n m; induction s as [|c s IH]; intros [|n] [|m];
    cbn [String.substring String.length]; rewrite ?IH; lia.
Qed.

Lemma clamp_range (len i : Z) : 0 <= len -> 0 <= clamp len i <= len.
Proof. unfold clamp. lia. Qed.

Lemma js_substring_infix (s : string) (a b : Z) :
  exists before after, s = before ++ substring s a b ++ after.
Proof. unfold substring. apply substring_infix. Qed.

Lemma js_substring_length (s : string) (a b : Z) :
  Z.of_nat (String.length (substring s a b))
  = Z.abs (clamp (Z.of_nat (String.length s)) b
           - clamp (Z.of_nat (String.length s)) a).
Proof.
  unfold substring. rewrite substring_length.
  pose proof (clamp_range (Z.of_nat (String.length s)) a (Nat2Z.is_nonneg _)).
  pose proof (clamp_range (Z.of_nat (String.length s)) b (Nat2Z.is_nonneg _)).
  lia.
Qed.

(** Exchanging the two indices gives the same slice. *)
Lemma js_substring_swap (s : string) (a b : Z) :
  substring s a b = substring s b a.
Proof.
  unfold substring. cbv zeta.
  now rewrite (Z.min_comm (clamp _ a)), (Z.max_comm (clamp _ a)).
Qed.

Lemma length_zero_empty (s : string) :
  String.length s = 0%nat -> s = EmptyString.
Proof. destruct s; [reflexivity | discriminate]. Qed.

(** Both indices at or beyond the end, or both at or before the start:
    the slice is empty. *)
Lemma js_substring_outside (s : string) (a b : Z) :
  (Z.of_nat (String.length s) <= a /\ Z.of_nat (String.length s) <= b) \/
  (a <= 0 /\ b <= 0) ->
  substring s a b = EmptyString.
Proof.
  intros H. apply length_zero_empty.
  pose proof (js_substring_length s a b) as L. unfold clamp in L. lia.
Qed.

(** In order and from inside the string, the slice runs between the two
    indices cut off at the length. *)
Lemma js_substring_ordered (s : string) (a b : Z) :
  0 <= a <= b ->
  substring s a b
  = String.substring
      (Z.to_nat (Z.min a (Z.of_nat (String.length s))))
      (Z.to_nat (Z.min b (Z.of_nat (String.length s))
                 - Z.min a (Z.of_nat (String.length s))))
      s.
Proof.
  intros H. unfold substring, clamp.
  rewrite !Z.max_l by lia. rewrite Z.min_l by lia. rewrite Z.max_r by lia.
  reflexivity.
Qed.

End JSMoreFacts.

(* ================================================================== *)
(** * Further properties of the tokenizer and the renderer *)
(* ================================================================== *)

Module PipelineFacts.

Import JS JSFacts JSMoreFacts Highlighter HighlighterFacts Spans.

(** ** What any engine can make [tokenize] emit *)

Lemma codeLineTokens_inside (codeLine : string)
    (spans : list vscodeTextmate.IToken) :
  Forall (fun token =>
            exists before after, codeLine = before ++ text token ++ after)
         (codeLineTokens codeLine spans).
Proof.
  apply Forall_forall. intros token Hin. unfold codeLineTokens in Hin.
  apply in_map_iff in Hin as (span & <- & _). simpl.
  apply js_substring_infix.
Qed.

Lemma occurrences_inside (c : ascii) (s before t after : string) :
  s = before ++ t ++ after -> occurrences c s = 0%nat ->
  occurrences c t = 0%nat.
Proof. intros -> H. rewrite !occurrences_append in H. lia. Qed.

Section AnyEngine.

Context {StateStack : Type}.
Variable grammar : vscodeTextmate.IGrammar StateStack.

Lemma tokenizeFrom_inside (codeLines : list string) (ruleStack : StateStack) :
  Forall2 (fun codeLine tokens =>
             Forall (fun token =>
                       exists before after,
                         codeLine = before ++ text token ++ after)
                    tokens)
          codeLines (tokenizeFrom grammar ruleStack codeLines).
Proof.
  revert ruleStack; induction codeLines as [|l rest IH]; intros rs; simpl;
    constructor; [apply codeLineTokens_inside | apply IH].
Qed.

Lemma tokenizeFrom_single_line (codeLines : list string)
    (ruleStack : StateStack) :
  Forall (fun codeLine => occurrences LF codeLine = 0%nat) codeLines ->
  Forall (Forall (fun token => occurrences LF (text token) = 0%nat))
         (tokenizeFrom grammar ruleStack codeLines).
Proof.
  intros H. revert ruleStack; induction H as [|l rest Hl Hrest IH];
    intros rs; simpl; constructor; [|apply IH].
  eapply Forall_impl; [|apply codeLineTokens_inside].
  intros token (before & after & E).
  exact (occurrences_inside LF l before (text token) after E Hl).
Qed.

(** All the calls at once: line [i] is passed with the stack held before
    line [i]. *)
Lemma tokenizeLineCalls_seq (codeLines : list string) (ruleStack : StateStack) :
  tokenizeLineCalls grammar ruleStack codeLines
  = map (fun i => (nth i codeLines EmptyString,
                   ruleStackBefore ruleStack grammar codeLines i))
        (seq 0 (List.length codeLines)).
Proof.
  revert ruleStack; induction codeLines as [|l rest IH]; intros rs;
    [reflexivity|].
  cbn [tokenizeLineCalls List.length seq map]. f_equal.
  rewrite <- seq_shift, map_map, IH. apply map_ext. intros i.
  now rewrite ruleStackBefore_shift.
Qed.

(** Tokenizing two runs of lines: the second run starts from the stack
    left by the first. *)
Lemma tokenizeFrom_app (lines1 lines2 : list string) (ruleStack : StateStack) :
  tokenizeFrom grammar ruleStack (lines1 ++ lines2)
  = (tokenizeFrom grammar ruleStack lines1
     ++ tokenizeFrom grammar
          (ruleStackBefore ruleStack grammar lines1 (List.length lines1))
          lines2)%list.
Proof.
  revert ruleStack; induction lines1 as [|l rest IH]; intros rs;
    [reflexivity|].
  cbn [app tokenizeFrom List.length]. f_equal.
  now rewrite IH, ruleStackBefore_shift.
Qed.

End AnyEngine.

(** X1. Whatever spans the engine returns (negative, reversed or beyond the
    end of the line), the text of every emitted token is a contiguous part
    of the line it was emitted for. *)
Theorem token_text_inside_line (StateStack : Type) (INITIAL : StateStack)
    (grammar : vscodeTextmate.IGrammar StateStack) (code : string) :
  Forall2 (fun codeLine tokens =>
             Forall (fun token =>
                       exists before after,
                         codeLine = before ++ text token ++ after)
                    tokens)
          (split code LF) (tokenize INITIAL code grammar).
Proof. apply tokenizeFrom_inside. Qed.

(** X2. No emitted token text contains a line feed, whatever the engine
    returns. *)
Theorem token_text_single_line (StateStack : Type) (INITIAL : StateStack)
    (grammar : vscodeTextmate.IGrammar StateStack) (code : string) :
  Forall (Forall (fun token => occurrences LF (text token) = 0%nat))
         (tokenize INITIAL code grammar).
Proof. apply tokenizeFrom_single_line, split_no_sep. Qed.

(** X3. The text of the token made from a span has as many characters as
    lie between the two indices once each is cut off to the line; the spans
    with their indices exchanged give the very same tokens; and a span that
    lies wholly at or beyond the end of the line, or wholly at or before its
    start, gives the empty text. *)
Theorem token_text_of_any_span (codeLine : string)
    (spans : list vscodeTextmate.IToken) :
  map (fun token => Z.of_nat (String.length (text token)))
      (codeLineTokens codeLine spans)
  = map (fun span =>
           Z.abs (clamp (Z.of_nat (String.length codeLine))
                        (vscodeTextmate.endIndex span)
                  - clamp (Z.of_nat (String.length codeLine))
                          (vscodeTextmate.startIndex span)))
        spans /\
  codeLineTokens codeLine (map turned spans)
  = codeLineTokens codeLine spans /\
  (forall a b sc,
     (Z.of_nat (String.length codeLine) <= a /\
      Z.of_nat (String.length codeLine) <= b) \/
     (a <= 0 /\ b <= 0) ->
     codeLineTokens codeLine
       [ {| vscodeTextmate.startIndex := a;
            vscodeTextmate.endIndex := b;
            vscodeTextmate.scopes := sc |} ]
     = [ {| text := EmptyString; scopes := sc |} ]).
Proof.
  split; [|split].
  - unfold codeLineTokens. rewrite map_map. apply map_ext. intros span.
    simpl. apply js_substring_length.
  - unfold codeLineTokens. rewrite map_map. apply map_ext. intros span.
    simpl. now rewrite js_substring_swap.
  - intros a b sc H. unfold codeLineTokens. simpl.
    now rewrite (js_substring_outside codeLine a b H).
Qed.

(** The span [4..1] and the span [1..4] give the same token. *)
Example turned_span :
  codeLineTokens "hello"
    [ {| vscodeTextmate.startIndex := 4; vscodeTextmate.endIndex := 1;
         vscodeTextmate.scopes := ["b"] |} ]
  = codeLineTokens "hello"
      [ {| vscodeTextmate.startIndex := 1; vscodeTextmate.endIndex := 4;
           vscodeTextmate.scopes := ["b"] |} ] /\
  codeLineTokens "hello"
    [ {| vscodeTextmate.startIndex := 4; vscodeTextmate.endIndex := 1;
         vscodeTextmate.scopes := ["b"] |} ]
  = [ {| text := "ell"; scopes := ["b"] |} ].
Proof. split; reflexivity. Qed.

(** Spans [-3..2], [4..1] and [7..100] on a line of five characters. *)
Example wild_spans :
  tokenize tt "hello" wildGrammar
  = [[ {| text := "he"; scopes := ["a"] |};
       {| text := "ell"; scopes := ["b"] |};
       {| text := EmptyString; scopes := ["c"] |} ]].
Proof. reflexivity. Qed.

(** ** Coverage when the last span runs past the end of the line *)

Lemma codeLineTokens_reaches (codeLine : string)
    (spans : list vscodeTextmate.IToken) (a : Z) :
  0 <= a ->
  reaches a (Z.of_nat (String.length codeLine)) spans ->
  concatAll (map text (codeLineTokens codeLine spans))
  = String.substring
      (Z.to_nat (Z.min a (Z.of_nat (String.length codeLine))))
      (Z.to_nat (Z.of_nat (String.length codeLine)
                 - Z.min a (Z.of_nat (String.length codeLine))))
      codeLine.
Proof.
  remember (Z.of_nat (String.length codeLine)) as len eqn:Hlen.
  revert a; induction spans as [|token rest IH]; intros a Ha R; simpl in *.
  - rewrite Z.min_r by lia. rewrite Z.sub_diag.
    now rewrite substring_zero_length.
  - destruct R as (Hs & He & R). rewrite Hs.
    set (e := vscodeTextmate.endIndex token) in *.
    assert (0 <= e) as Hpos by lia.
    rewrite (IH e Hpos R).
    rewrite js_substring_ordered by lia. rewrite <- Hlen.
    replace (Z.to_nat (Z.min e len))
      with (Z.to_nat (Z.min a len)
            + Z.to_nat (Z.min e len - Z.min a len))%nat by lia.
    replace (Z.to_nat (len - Z.min a len))
      with (Z.to_nat (Z.min e len - Z.min a len)
            + Z.to_nat (len - Z.min e len))%nat by lia.
    apply substring_append. lia.
Qed.

Lemma tokenize_reaches (StateStack : Type) (INITIAL : StateStack)
    (grammar : vscodeTextmate.IGrammar StateStack) (code : string) :
  (forall codeLine ruleStack,
     In (codeLine, ruleStack)
        (tokenizeLineCalls grammar INITIAL (split code LF)) ->
     reaches 0 (Z.of_nat (String.length codeLine))
       (vscodeTextmate.tokens
          (vscodeTextmate.tokenizeLine grammar codeLine ruleStack))) ->
  map (fun codeLineTokens => concatAll (map text codeLineTokens))
      (tokenize INITIAL code grammar)
  = split code LF.
Proof.
  intros H. unfold tokenize. rewrite tokenizeFrom_calls, map_map.
  rewrite <- (tokenizeLineCalls_lines grammar (split code LF) INITIAL) at 2.
  apply map_ext_in. intros [codeLine ruleStack] Hin. simpl.
  rewrite (codeLineTokens_reaches codeLine _ 0 (Z.le_refl 0) (H _ _ Hin)).
  rewrite Z.min_l by lia. rewrite Z.sub_0_r, Nat2Z.id.
  apply substring_whole.
Qed.

(** X4. When the spans of every call start at 0, follow one another without
    gap or overlap and end at the end of the line or beyond it, the texts of
    each yielded list concatenate to the line, and the lines so rebuilt,
    joined by line feeds, are the input. *)
Theorem text_round_trip (StateStack : Type) (INITIAL : StateStack)
    (grammar : vscodeTextmate.IGrammar StateStack) (code : string) :
  (forall codeLine ruleStack,
     In (codeLine, ruleStack)
        (tokenizeLineCalls grammar INITIAL (split code LF)) ->
     reaches 0 (Z.of_nat (String.length codeLine))
       (vscodeTextmate.tokens
          (vscodeTextmate.tokenizeLine grammar codeLine ruleStack))) ->
  map (fun codeLineTokens => concatAll (map text codeLineTokens))
      (tokenize INITIAL code grammar)
  = split code LF /\
  join (map (fun codeLineTokens => concatAll (map text codeLineTokens))
            (tokenize INITIAL code grammar))
       (String LF EmptyString)
  = code.
Proof.
  intros H. rewrite (tokenize_reaches StateStack INITIAL grammar code H).
  split; [reflexivity | apply split_join].
Qed.

Lemma text_round_trip_witness :
  join (map (fun codeLineTokens => concatAll (map text codeLineTokens))
            (tokenize tt ("ab" ++ String LF (String LF "c")) overshootGrammar))
       (String LF EmptyString)
  = "ab" ++ String LF (String LF "c").
Proof.
  apply (text_round_trip unit tt overshootGrammar
           ("ab" ++ String LF (String LF "c"))).
  intros codeLine ruleStack _. simpl. lia.
Defined.

(** X5. Tokenizing [a], a line feed and [b] yields the lists of [a]
    followed by the lists of the lines of [b] tokenized from the stack that
    the last line of [a] left. *)
Theorem tokenize_append (StateStack : Type) (INITIAL : StateStack)
    (grammar : vscodeTextmate.IGrammar StateStack) (a b : string) :
  tokenize INITIAL (a ++ String LF b) grammar
  = (tokenize INITIAL a grammar
     ++ tokenizeFrom grammar
          (ruleStackBefore INITIAL grammar (split a LF)
             (List.length (split a LF)))
          (split b LF))%list.
Proof. unfold tokenize. now rewrite split_append, tokenizeFrom_app. Qed.

(** The comment opened on the last line of the first part is still open
    in the second part. *)
Example comment_spans_parts :
  tokenize false ("x" ++ String LF "/*" ++ String LF "y") commentGrammar
  = (tokenize false ("x" ++ String LF "/*") commentGrammar
     ++ tokenizeFrom commentGrammar true ["y"])%list.
Proof. reflexivity. Qed.

End PipelineFacts.

(* ================================================================== *)
(** * Further properties of the rendering and of [highlight] *)
(* ================================================================== *)

Module RenderingFacts.

Import JS JSFacts JSMoreFacts Highlighter HighlighterFacts PipelineFacts.

Lemma append_inv_head (a b c : string) : a ++ b = a ++ c -> b = c.
Proof.
  induction a as [|x a IH]; simpl; intros H; [exact H|].
  injection H as H. now apply IH.
Qed.

Lemma concatAll_app (xs ys : list string) :
  concatAll (xs ++ ys) = concatAll xs ++ concatAll ys.
Proof.
  induction xs as [|x xs IH]; simpl; [reflexivity|].
  now rewrite IH, append_assoc.
Qed.

(** ** Text and scopes are copied in as they are *)

Lemma render_contains_span (lines : list (list Token)) (line : list Token)
    (token : Token) :
  In line lines -> In token line ->
  exists before after,
    tokenizedFileToHTML lines = before ++ spanOf token ++ after.
Proof.
  intros Hline Htoken.
  apply in_split in Hline as (l1 & l2 & ->).
  apply in_split in Htoken as (t1 & t2 & ->).
  exists ("<pre><code>" ++ concatAll (map renderLine l1)
            ++ concatAll (map spanOf t1)),
         (concatAll (map spanOf t2) ++ "<br>"
            ++ concatAll (map renderLine l2) ++ "</code></pre>").
  rewrite tokenizedFileToHTML_render. unfold render.
  rewrite map_app, concatAll_app. cbn [map concatAll].
  unfold renderLine at 2. rewrite map_app, concatAll_app.
  cbn [map concatAll]. now rewrite !append_assoc.
Qed.

(** X6. The output contains, for every token, its scopes joined by commas
    and its text exactly as they are, between the literal pieces of the
    span: no character of either is escaped or dropped. *)
Theorem rendered_verbatim (lines : list (list Token)) :
  Forall (Forall (fun token =>
                    includes (tokenizedFileToHTML lines)
                      (" title=" ++ dq ++ join (scopes token) "," ++ dq
                         ++ ">" ++ text token ++ "</span>")
                    = true))
         lines.
Proof.
  apply Forall_forall. intros line Hline.
  apply Forall_forall. intros token Htoken.
  destruct (render_contains_span lines line token Hline Htoken)
    as (before & after & H).
  apply includes_spec.
  exists (before ++ "<span " ++ styleAttributeForToken token), after.
  rewrite H. unfold spanOf. now rewrite !append_assoc.
Qed.

(** Markup in a token text arrives in the output as markup. *)
Example markup_survives :
  includes
    (tokenizedFileToHTML
       [[ {| text := "a < b && c > d"; scopes := ["source.ts"] |} ]])
    ">a < b && c > d</span>"
  = true.
Proof. reflexivity. Qed.

(** ** When two names share a colour *)

Lemma htmlColors_NoDup : NoDup htmlColors.
Proof.
  replace htmlColors with (nodup string_dec htmlColors)
    by (vm_compute; reflexivity).
  apply NoDup_nodup.
Qed.

(** X7. Two name-like tokens get the same style attribute exactly when the
    checksums of their texts agree modulo 60: the table has no colour
    twice, so different indices never show the same colour. *)
Theorem same_color_iff (token1 token2 : Token) :
  nameLike token1 -> nameLike token2 ->
  (styleAttributeForToken token1 = styleAttributeForToken token2 <->
   Crc.crc8 (text token1) mod 60 = Crc.crc8 (text token2) mod 60).
Proof.
  intros NL1 NL2.
  destruct (style_of_nameLike token1 NL1) as (c1 & H1 & ->).
  destruct (style_of_nameLike token2 NL2) as (c2 & H2 & ->).
  pose proof (Z.mod_pos_bound (Crc.crc8 (text token1)) 60 ltac:(lia)) as B1.
  pose proof (Z.mod_pos_bound (Crc.crc8 (text token2)) 60 ltac:(lia)) as B2.
  split.
  - intros H. do 3 apply append_inv_head in H. apply append_inv_tail in H.
    subst c2.
    assert (Z.to_nat (Crc.crc8 (text token1) mod 60)
            = Z.to_nat (Crc.crc8 (text token2) mod 60)) as E.
    { apply (proj1 (NoDup_nth_error htmlColors) htmlColors_NoDup).
      - rewrite htmlColors_length. lia.
      - congruence. }
    lia.
  - intros E. rewrite E in H1. congruence.
Qed.

Lemma same_color_iff_witness :
  styleAttributeForToken {| text := "x"; scopes := ["variable.other"] |}
  = styleAttributeForToken {| text := "x"; scopes := ["entity.name.type"] |}
  <-> Crc.crc8 "x" mod 60 = Crc.crc8 "x" mod 60.
Proof.
  apply (same_color_iff {| text := "x"; scopes := ["variable.other"] |}
                        {| text := "x"; scopes := ["entity.name.type"] |});
    apply nameLike_existsb; reflexivity.
Defined.

(** ** A successful [highlight] *)

(** X8. When the flag resolves and the registry returns a grammar for the
    resolved scope name, [highlight] loads that grammar once, then has each
    line of the input tokenized once, in order and with the stack left by
    the line before, and returns the rendering of the yields. *)
Theorem highlight_success (StateStack : Type) (INITIAL : StateStack)
    (grammars : list GrammarInfo)
    (loadGrammar : string -> option (vscodeTextmate.IGrammar StateStack))
    (code flag : string) (grammarInfo : GrammarInfo)
    (grammar : vscodeTextmate.IGrammar StateStack) :
  flagToGrammarInfo grammars flag = Some grammarInfo ->
  loadGrammar (scopeName grammarInfo) = Some grammar ->
  highlight INITIAL grammars loadGrammar code flag
  = (LoadGrammar (scopeName grammarInfo)
       :: map (fun i =>
                 TokenizeLine (nth i (split code LF) EmptyString)
                   (ruleStackBefore INITIAL grammar (split code LF) i))
              (seq 0 (S (occurrences LF code))),
     Returned (tokenizedFileToHTML (tokenize INITIAL code grammar))).
Proof.
  intros Hflag Hload. rewrite highlight_cases, Hflag, Hload.
  rewrite tokenizeLineCalls_seq, map_map, split_length. reflexivity.
Qed.

Lemma highlight_success_witness :
  highlight false sampleGrammars (fun _ => Some commentGrammar)
    ("/*" ++ String LF "y") "hs"
  = ([ LoadGrammar "source.haskell";
       TokenizeLine "/*" false;
       TokenizeLine "y" true ],
     Returned
       (tokenizedFileToHTML
          (tokenize false ("/*" ++ String LF "y") commentGrammar))).
Proof.
  apply (highlight_success bool false sampleGrammars
           (fun _ => Some commentGrammar) ("/*" ++ String LF "y") "hs"
           {| name := "haskell"; scopeName := "source.haskell";
              aliases := Some ["hs"] |} commentGrammar);
    reflexivity.
Defined.

End RenderingFacts.

(* ================================================================== *)
(** * Properties of flag and file resolution *)
(* ================================================================== *)

Module LoaderFacts.

Import JS JSFacts Highlighter HighlighterFacts Loader.

Lemma find_app (A : Type) (xs ys : list A) (p : A -> bool) :
  find (xs ++ ys) p
  = match find xs p with
    | Some x => Some x
    | None => find ys p
    end.
Proof.
  induction xs as [|x xs IH]; simpl; [reflexivity|].
  now destruct (p x).
Qed.

(** X9. In a grammar list made of two parts, a flag resolves in the first
    part when it can; the second part is consulted only for flags that name
    nothing in the first.  Appending grammars never changes what an
    existing flag resolves to. *)
Theorem appended_grammars_resolution (grammars more : list GrammarInfo)
    (flag : string) :
  flagToGrammarInfo (grammars ++ more) flag
  = match flagToGrammarInfo grammars flag with
    | Some grammarInfo => Some grammarInfo
    | None => flagToGrammarInfo more flag
    end.
Proof. apply find_app. Qed.

(** ** The path of a grammar file *)

Lemma path_some (grammars : list GrammarInfo) (scope path : string) :
  scopeNameToGrammarFilePath grammars scope = Some path <->
  exists before grammarInfo after,
    grammars = (before ++ grammarInfo :: after)%list /\
    scopeName grammarInfo = scope /\
    (forall earlier, In earlier before -> scopeName earlier <> scope) /\
    path = "./node_modules/tm-grammars/grammars/"
             ++ name grammarInfo ++ ".json".
Proof.
  induction grammars as [|g rest IH]; simpl.
  - split; [discriminate|].
    intros (before & gi & after & H & _). now destruct before.
  - destruct (String.eqb scope (scopeName g)) eqn:E.
    + apply String.eqb_eq in E. split.
      * intros [= <-]. exists [], g, rest. simpl. intuition.
      * intros (before & gi & after & H & Hs & Hb & ->).
        destruct before as [|e before]; simpl in H.
        -- now injection H as <- _.
        -- injection H as <- _. now destruct (Hb g (or_introl eq_refl)).
    + apply String.eqb_neq in E. rewrite IH. split.
      * intros (before & gi & after & -> & Hs & Hb & ->).
        exists (g :: before), gi, after. simpl. repeat split; auto.
        intros earlier [<- | Hin]; [congruence | now apply Hb].
      * intros (before & gi & after & H & Hs & Hb & ->).
        destruct before as [|e before]; simpl in H.
        -- injection H as -> _. congruence.
        -- injection H as _ ->. exists before, gi, after.
           repeat split; auto. intros earlier Hin. apply Hb. now right.
Qed.

Lemma path_none (grammars : list GrammarInfo) (scope : string) :
  scopeNameToGrammarFilePath grammars scope = None <->
  forall grammarInfo, In grammarInfo grammars ->
    scopeName grammarInfo <> scope.
Proof.
  induction grammars as [|g rest IH]; simpl.
  - split; [intros _ gi [] | reflexivity].
  - destruct (String.eqb scope (scopeName g)) eqn:E.
    + apply String.eqb_eq in E. split; [discriminate|].
      intros H. now destruct (H g (or_introl eq_refl)).
    + apply String.eqb_neq in E. rewrite IH. split.
      * intros H gi [<- | Hin]; [congruence | now apply H].
      * intros H gi Hin. apply H. now right.
Qed.

(** X10. [scopeNameToGrammarFilePath] returns the path built from the name
    of the first grammar of the list with that scope name, and [undefined]
    exactly when no grammar of the list has that scope name. *)
Theorem grammar_file_path (grammars : list GrammarInfo) (scope : string) :
  (forall path,
     scopeNameToGrammarFilePath grammars scope = Some path <->
     exists before grammarInfo after,
       grammars = (before ++ grammarInfo :: after)%list /\
       scopeName grammarInfo = scope /\
       (forall earlier, In earlier before -> scopeName earlier <> scope) /\
       path = "./node_modules/tm-grammars/grammars/"
                ++ name grammarInfo ++ ".json") /\
  (scopeNameToGrammarFilePath grammars scope = None <->
   forall grammarInfo, In grammarInfo grammars ->
     scopeName grammarInfo <> scope).
Proof.
  split; [intros path; apply path_some | apply path_none].
Qed.

Lemma resolved_in_list (grammars : list GrammarInfo) (flag : string)
    (grammarInfo : GrammarInfo) :
  flagToGrammarInfo grammars flag = Some grammarInfo ->
  In grammarInfo grammars.
Proof.
  intros H. apply flagToGrammarInfo_some in H as (before & after & -> & _).
  apply in_or_app. right. now left.
Qed.

Lemma unique_scope_first (before after : list GrammarInfo)
    (g g' : GrammarInfo) (before' after' : list GrammarInfo) :
  NoDup (map scopeName (before ++ g :: after)) ->
  (before ++ g :: after = before' ++ g' :: after')%list ->
  scopeName g' = scopeName g ->
  (forall earlier, In earlier before' -> scopeName earlier <> scopeName g) ->
  g' = g.
Proof.
  revert before'; induction before as [|b before IH]; intros before' ND E Hs Hb.
  - destruct before' as [|b' before']; simpl in E.
    + now injection E as ->.
    + injection E as <- _. now destruct (Hb g (or_introl eq_refl)).
  - destruct before' as [|b' before']; simpl in E.
    + injection E as <- <-. simpl in ND. inversion ND as [|? ? Hnot _].
      destruct Hnot. rewrite Hs. apply in_map, in_or_app. right. now left.
    + injection E as <- E. simpl in ND. inversion ND as [|? ? _ ND'].
      apply (IH before' ND' E Hs). intros earlier Hin. apply Hb. now right.
Qed.

(** X11. The scope name of a grammar that a flag resolved to always has a
    file path; when no two grammars of the list share a scope name, it is
    the file named after that very grammar. *)
Theorem resolved_flag_has_file (grammars : list GrammarInfo) (flag : string)
    (grammarInfo : GrammarInfo) :
  flagToGrammarInfo grammars flag = Some grammarInfo ->
  (exists path,
     scopeNameToGrammarFilePath grammars (scopeName grammarInfo) = Some path) /\
  (NoDup (map scopeName grammars) ->
   scopeNameToGrammarFilePath grammars (scopeName grammarInfo)
   = Some ("./node_modules/tm-grammars/grammars/"
             ++ name grammarInfo ++ ".json")).
Proof.
  intros H. pose proof (resolved_in_list grammars flag grammarInfo H) as Hin.
  destruct (scopeNameToGrammarFilePath grammars (scopeName grammarInfo))
    as [path|] eqn:P.
  - split; [now exists path|]. intros ND.
    apply path_some in P as (before' & g' & after' & E & Hs & Hb & ->).
    apply in_split in Hin as (before & after & E').
    rewrite E' in ND, E.
    now rewrite (unique_scope_first before after grammarInfo g'
                   before' after' ND E Hs Hb).
  - rewrite path_none in P. now destruct (P grammarInfo Hin).
Qed.

Lemma resolved_flag_has_file_witness :
  scopeNameToGrammarFilePath sampleGrammars "source.haskell"
  = Some "./node_modules/tm-grammars/grammars/haskell.json".
Proof.
  apply (resolved_flag_has_file sampleGrammars "hs"
           {| name := "haskell"; scopeName := "source.haskell";
              aliases := Some ["hs"] |}).
  - reflexivity.
  - replace (map scopeName sampleGrammars)
      with (nodup string_dec (map scopeName sampleGrammars))
      by (vm_compute; reflexivity).
    apply NoDup_nodup.
Defined.

(** With a scope name shared by two grammars, the flag of the second one
    gets the file of the first. *)
Example shared_scope_name :
  let grammars :=
    [ {| name := "javascript"; scopeName := "source.js"; aliases := Some ["js"] |};
      {| name := "jsx"; scopeName := "source.js"; aliases := None |} ] in
  flagToGrammarInfo grammars "jsx"
  = Some {| name := "jsx"; scopeName := "source.js"; aliases := None |} /\
  scopeNameToGrammarFilePath grammars "source.js"
  = Some "./node_modules/tm-grammars/grammars/javascript.json".
Proof. split; reflexivity. Qed.

(** ** The [loadGrammar] option of the registry *)

Lemma path_not_falsy (grammars : list GrammarInfo) (scope path : string) :
  scopeNameToGrammarFilePath grammars scope = Some path ->
  falsy (Some path) = false.
Proof.
  intros H. apply path_some in H as (_ & gi & _ & _ & _ & _ & ->).
  reflexivity.
Qed.

Lemma loadGrammar_cases (RawGrammar : Type) (grammars : list GrammarInfo)
    (readFileSync : string -> Outcome string)
    (parseRawGrammar : string -> string -> Outcome RawGrammar)
    (scope : string) :
  match scopeNameToGrammarFilePath grammars scope with
  | None =>
      loadGrammar RawGrammar grammars readFileSync parseRawGrammar scope
      = ([], Returned None)
  | Some path =>
      loadGrammar RawGrammar grammars readFileSync parseRawGrammar scope
      = ([path],
         match readFileSync path with
         | Thrown message => Thrown message
         | Returned content =>
             match parseRawGrammar content path with
             | Thrown message => Thrown message
             | Returned raw => Returned (Some raw)
             end
         end)
  end.
Proof.
  unfold loadGrammar.
  destruct (scopeNameToGrammarFilePath grammars scope) as [path|] eqn:P;
    [|reflexivity].
  rewrite (path_not_falsy grammars scope path P). simpl.
  destruct (readFileSync path); [|reflexivity].
  now destruct (parseRawGrammar value path).
Qed.

(** X12. The [loadGrammar] option of the registry returns [undefined]
    exactly when no grammar of the list has the scope name, and then it
    reads no file.  Otherwise it reads one file and no other: the one of
    the first grammar with that scope name, under the grammars directory of
    [tm-grammars]. *)
Theorem loadGrammar_reads (RawGrammar : Type) (grammars : list GrammarInfo)
    (readFileSync : string -> Outcome string)
    (parseRawGrammar : string -> string -> Outcome RawGrammar)
    (scope : string) :
  let result :=
    loadGrammar RawGrammar grammars readFileSync parseRawGrammar scope in
  (snd result = Returned None <->
   forall grammarInfo, In grammarInfo grammars ->
     scopeName grammarInfo <> scope) /\
  (fst result = [] <->
   forall grammarInfo, In grammarInfo grammars ->
     scopeName grammarInfo <> scope) /\
  (forall path, In path (fst result) ->
     fst result = [path] /\
     scopeNameToGrammarFilePath grammars scope = Some path /\
     startsWith path "./node_modules/tm-grammars/grammars/" = true).
Proof.
  intros result. subst result. rewrite <- path_none.
  pose proof (loadGrammar_cases RawGrammar grammars readFileSync
                parseRawGrammar scope) as C.
  destruct (scopeNameToGrammarFilePath grammars scope) as [path|] eqn:P;
    rewrite C; simpl.
  - split; [|split].
    + split; [|discriminate].
      destruct (readFileSync path) as [content|]; [|discriminate].
      destruct (parseRawGrammar content path); discriminate.
    + split; discriminate.
    + intros q [<- | []]. repeat split.
      apply path_some in P as (_ & gi & _ & _ & _ & _ & ->). reflexivity.
  - split; [|split]; tauto.
Qed.

End LoaderFacts.

(* ================================================================== *)
(** * Properties of the script *)
(* ================================================================== *)

Module ScriptFacts.

Import JS Highlighter Script.

Lemma writes_app (StateStack : Type) (xs ys : list (Effect StateStack)) :
  writes (xs ++ ys) = (writes xs ++ writes ys)%list.
Proof. unfold writes. apply flat_map_app. Qed.

Lemma writes_engine (StateStack : Type) (calls : list (Call StateStack)) :
  writes (map Engine calls) = [].
Proof. induction calls as [|c calls IH]; [reflexivity | exact IH]. Qed.

Section MainFacts.

Context {StateStack : Type}.
Variable INITIAL : StateStack.
Variable grammars : list GrammarInfo.
Variable loadGrammar : string -> option (vscodeTextmate.IGrammar StateStack).
Variable writeFileSync : string -> string -> option string.

(** One statement of the script: what it writes and how it ends. *)
Lemma writeHighlighted_cases (file code flag : string) :
  let statement :=
    writeHighlighted INITIAL grammars loadGrammar writeFileSync
      file code flag in
  match snd (highlight INITIAL grammars loadGrammar code flag) with
  | Thrown message =>
      writes (fst statement) = [] /\ snd statement = Thrown message
  | Returned fragment =>
      writes (fst statement) = [(file, document fragment)] /\
      snd statement
      = match writeFileSync file (document fragment) with
        | Some message => Thrown message
        | None => Returned tt
        end
  end.
Proof.
  unfold writeHighlighted.
  destruct (highlight INITIAL grammars loadGrammar code flag)
    as [calls [fragment | message]]; simpl.
  - now rewrite writes_app, writes_engine.
  - now rewrite writes_engine.
Qed.

End MainFacts.

(** X13. What the script writes and how it ends, in every case.  When
    the first [highlight] throws, nothing is written and the script throws
    that error.  Otherwise [typescript.html] is written first, with the
    document around the first fragment; when that write does not throw and
    the second [highlight] returns, [haskell.html] is written second, with
    the document around the second fragment.  The script ends normally
    exactly when both fragments were returned and neither write threw;
    otherwise it throws the first error met. *)
Theorem script_writes (StateStack : Type) (INITIAL : StateStack)
    (grammars : list GrammarInfo)
    (loadGrammar : string -> option (vscodeTextmate.IGrammar StateStack))
    (writeFileSync : string -> string -> option string) :
  let run := main INITIAL grammars loadGrammar writeFileSync in
  let first :=
    snd (highlight INITIAL grammars loadGrammar exampleTypescript "ts") in
  let second :=
    snd (highlight INITIAL grammars loadGrammar exampleHaskell "hs") in
  writes (fst run)
  = match first with
    | Thrown _ => []
    | Returned fragment =>
        ("typescript.html", document fragment)
          :: match writeFileSync "typescript.html" (document fragment),
                   second with
             | None, Returned fragment' =>
                 [("haskell.html", document fragment')]
             | _, _ => []
             end
    end /\
  snd run
  = match first with
    | Thrown message => Thrown message
    | Returned fragment =>
        match writeFileSync "typescript.html" (document fragment) with
        | Some message => Thrown message
        | None =>
            match second with
            | Thrown message => Thrown message
            | Returned fragment' =>
                match writeFileSync "haskell.html" (document fragment') with
                | Some message => Thrown message
                | None => Returned tt
                end
            end
        end
    end.
Proof.
  intros run first second. subst run first second. unfold main.
  pose proof (writeHighlighted_cases INITIAL grammars loadGrammar
                writeFileSync "typescript.html" exampleTypescript "ts") as C1.
  pose proof (writeHighlighted_cases INITIAL grammars loadGrammar
                writeFileSync "haskell.html" exampleHaskell "hs") as C2.
  cbv zeta in C1, C2.
  destruct (writeHighlighted INITIAL grammars loadGrammar writeFileSync
              "typescript.html" exampleTypescript "ts") as [e1 o1].
  destruct (writeHighlighted INITIAL grammars loadGrammar writeFileSync
              "haskell.html" exampleHaskell "hs") as [e2 o2].
  simpl fst in C1, C2. simpl snd in C1, C2.
  destruct (snd (highlight INITIAL grammars loadGrammar exampleTypescript "ts"))
    as [f1 | m1]; destruct C1 as [W1 O1]; subst o1.
  - destruct (writeFileSync "typescript.html" (document f1)) as [m|];
      simpl.
    + now rewrite W1.
    + rewrite writes_app, W1.
      destruct (snd (highlight INITIAL grammars loadGrammar exampleHaskell "hs"))
        as [f2 | m2]; destruct C2 as [W2 O2]; subst o2; rewrite W2;
        now split.
  - simpl. now rewrite W1.
Qed.

(** Both files, in order, when nothing throws. *)
Example both_files_written :
  let run :=
    main false sampleGrammars (fun _ => Some commentGrammar)
         (fun _ _ => None) in
  map fst (writes (fst run)) = ["typescript.html"; "haskell.html"] /\
  snd run = Returned tt.
Proof. vm_compute. split; reflexivity. Qed.

End ScriptFacts.

(* ================================================================== *)
(** * What the engine is given and what the style ignores *)
(* ================================================================== *)

Module EngineFacts.

Import JS JSFacts JSMoreFacts Highlighter HighlighterFacts.

(** X14. The lines passed to [tokenizeLine], joined by line feeds, are the
    input: every character other than a line feed reaches the engine once
    and in order (a carriage return stays at the end of its line), and no
    line passed contains a line feed. *)
Theorem engine_sees_input (StateStack : Type) (INITIAL : StateStack)
    (grammar : vscodeTextmate.IGrammar StateStack) (code : string) :
  join (map fst (tokenizeLineCalls grammar INITIAL (split code LF)))
       (String LF EmptyString)
  = code /\
  Forall (fun call => occurrences LF (fst call) = 0%nat)
         (tokenizeLineCalls grammar INITIAL (split code LF)).
Proof.
  split.
  - rewrite tokenizeLineCalls_lines. apply split_join.
  - apply Forall_forall. intros call Hin.
    apply (in_map fst) in Hin. rewrite tokenizeLineCalls_lines in Hin.
    exact (proj1 (Forall_forall _ _) (split_no_sep code LF) _ Hin).
Qed.

(** A carriage return before the line feed is passed on with its line. *)
Example carriage_return_kept :
  map fst (tokenizeLineCalls wholeLineGrammar tt
             (split ("a" ++ String (ascii_of_nat 13) (String LF "b")) LF))
  = [ "a" ++ String (ascii_of_nat 13) EmptyString; "b" ].
Proof. reflexivity. Qed.

Lemma nameLike_more_scopes (token1 token2 : Token) :
  nameLike token1 ->
  (forall scope, In scope (scopes token1) -> In scope (scopes token2)) ->
  nameLike token2.
Proof.
  intros (scope & Hin & H) Sub. exists scope. split; [now apply Sub | exact H].
Qed.

(** X15. The style attribute of a name-like token stays the same when the
    token is given further scopes or its scopes are reordered, as long as
    the text is the same: of the scopes only the fact that one of them is
    name-like matters. *)
Theorem style_ignores_scope_detail (token1 token2 : Token) :
  nameLike token1 ->
  (forall scope, In scope (scopes token1) -> In scope (scopes token2)) ->
  text token2 = text token1 ->
  styleAttributeForToken token2 = styleAttributeForToken token1 /\
  styleAttributeForToken token2 <> EmptyString.
Proof.
  intros NL1 Sub Htext.
  pose proof (nameLike_more_scopes token1 token2 NL1 Sub) as NL2.
  destruct (style_of_nameLike token1 NL1) as (c1 & H1 & ->).
  destruct (style_of_nameLike token2 NL2) as (c2 & H2 & ->).
  rewrite Htext in H2. split; [congruence | discriminate].
Qed.

Lemma style_ignores_scope_detail_witness :
  styleAttributeForToken
    {| text := "foldl";
       scopes := ["source.haskell"; "meta.function"; "entity.name.function"] |}
  = styleAttributeForToken
      {| text := "foldl"; scopes := ["entity.name.function"] |} /\
  styleAttributeForToken
    {| text := "foldl";
       scopes := ["source.haskell"; "meta.function"; "entity.name.function"] |}
  <> EmptyString.
Proof.
  apply (style_ignores_scope_detail
           {| text := "foldl"; scopes := ["entity.name.function"] |}
           {| text := "foldl";
              scopes := ["source.haskell"; "meta.function";
                         "entity.name.function"] |}).
  - apply nameLike_existsb. reflexivity.
  - intros scope [<- | []]. simpl. tauto.
  - reflexivity.
Defined.

End EngineFacts.
